(** * Debounced interrupt-to-task pipeline of the embed-agent GPIO demos

    A shallow embedding of the button / buzzer / LED programs of the
    repository and the properties of their debounce filter, event queue,
    mode counter and LED timer.

    Each C function is a Rocq function on a record holding the globals it
    reads and writes.  What the hardware answers during a call (the clock,
    a pin level) is an argument; what the program asks of the HAL (pin
    writes, delays, timer calls) is returned as a list of calls, oldest
    first. *)

From Stdlib Require Import ZArith List Lia Bool.
Import ListNotations.
Open Scope Z_scope.

(** * Machine integers *)

Module Int.

(** Conversion to [int64_t]: two's complement wrap-around. *)
Definition to_int64 (x : Z) : Z := (x + 2 ^ 63) mod 2 ^ 64 - 2 ^ 63.

(** Conversion to [uint32_t] and [uint8_t]. *)
Definition to_uint32 (x : Z) : Z := x mod 2 ^ 32.
Definition to_uint8 (x : Z) : Z := x mod 2 ^ 8.

(** [a - b] on [int64_t] operands. *)
Definition sub_int64 (a b : Z) : Z := to_int64 (a - b).

(** [a - b] on [uint32_t] operands. *)
Definition sub_uint32 (a b : Z) : Z := to_uint32 (a - b).

(** The values [esp_timer_get_time] returns: microseconds since boot. *)
Definition is_time_us (t : Z) : Prop := 0 <= t < 2 ^ 63.

(** [!x] in C. *)
Definition lnot (x : Z) : Z := if x =? 0 then 1 else 0.

End Int.

(** * The FreeRTOS queue *)

Module Queue.

Section Items.
Context {A : Type}.

(** Modelled from the spec: the FreeRTOS queue behind [xQueueCreate],
    [xQueueSendFromISR] and [xQueueReceive] is not part of the
    repository.  It is the Event Channel of the spec: a bounded FIFO of
    copied items whose non-blocking push reports failure and leaves the
    queue untouched when it is full, and whose pop takes the oldest
    item.  [uxLength] is the capacity given at creation, [items] the
    content, oldest first. *)
Record queue : Type := mkQueue { uxLength : nat; items : list A }.

Definition xQueueCreate (len : nat) : queue :=
  {| uxLength := len; items := [] |}.

Definition is_full (q : queue) : bool :=
  (uxLength q <=? length (items q))%nat.

(** Modelled from the spec: the push of the Event Channel, non-blocking.
    Returns the queue and [pdTRUE] ([true]), or the queue as it was and
    [errQUEUE_FULL] ([false]) when it is full. *)
Definition xQueueSendFromISR (q : queue) (x : A) : queue * bool :=
  if is_full q then (q, false)
  else ({| uxLength := uxLength q; items := items q ++ [x] |}, true).

(** Modelled from the spec: the pop of the Event Channel, called with
    [portMAX_DELAY].  [None] when the queue is empty: the caller stays
    blocked. *)
Definition xQueueReceive (q : queue) : option (A * queue) :=
  match items q with
  | [] => None
  | x :: rest => Some (x, {| uxLength := uxLength q; items := rest |})
  end.

(** Producer calls only: the queue after the pushes and the status of
    each. *)
Fixpoint send_all (q : queue) (xs : list A) : queue * list bool :=
  match xs with
  | [] => (q, [])
  | x :: rest =>
      let (q1, ok) := xQueueSendFromISR q x in
      let (q2, oks) := send_all q1 rest in
      (q2, ok :: oks)
  end.

(** Consumer calls only: receive until the queue is empty; [n] bounds
    the number of calls. *)
Fixpoint receive_all (n : nat) (q : queue) : list A * queue :=
  match n with
  | O => ([], q)
  | S k =>
      match xQueueReceive q with
      | None => ([], q)
      | Some (x, q1) => let (xs, q2) := receive_all k q1 in (x :: xs, q2)
      end
  end.

(** An arbitrary interleaving of producer and consumer. *)
Inductive op : Type :=
| Send (x : A)
| Receive.

Record history : Type := mkHistory {
  chan : queue;
  pushed : list A;     (* items whose push succeeded, in push order *)
  dropped : list A;    (* items whose push failed *)
  delivered : list A   (* items handed to the consumer, in pop order *)
}.

Definition start (q : queue) : history :=
  {| chan := q; pushed := []; dropped := []; delivered := [] |}.

Definition step (h : history) (o : op) : history :=
  match o with
  | Send x =>
      let (q, ok) := xQueueSendFromISR (chan h) x in
      if ok
      then {| chan := q; pushed := pushed h ++ [x];
              dropped := dropped h; delivered := delivered h |}
      else {| chan := q; pushed := pushed h;
              dropped := dropped h ++ [x]; delivered := delivered h |}
  | Receive =>
      match xQueueReceive (chan h) with
      | None => h
      | Some (x, q) =>
          {| chan := q; pushed := pushed h; dropped := dropped h;
             delivered := delivered h ++ [x] |}
      end
  end.

Definition run (h : history) (ops : list op) : history :=
  fold_left step ops h.

(** What was delivered, followed by what waits in the queue, is what was
    pushed with success, in push order; the queue stays within its
    capacity. *)
Definition fifo (h : history) : Prop :=
  delivered h ++ items (chan h) = pushed h
  /\ (length (items (chan h)) <= uxLength (chan h))%nat.

End Items.

Arguments queue : clear implicits.
Arguments op : clear implicits.
Arguments history : clear implicits.

End Queue.

(** * The doorbell with debounce in the interrupt handler
      (src/unnamed/part_000) *)

Module Doorbell.
Import Int Queue.

Definition BUZZER_GPIO : Z := 13.
Definition BUTTON_GPIO : Z := 21.
Definition DEBOUNCE_TIME_US : Z := 50000.

Record gpio_event_t : Type := mkEvent { gpio_num : Z; level : Z }.

(** What the hardware answers during one run of the handler:
    [esp_timer_get_time ()] and [gpio_get_level (gpio_num)]. *)
Record raw_edge : Type := mkEdge { timestamp_us : Z; sampled_level : Z }.

Record state : Type := mkState {
  last_interrupt_time : Z;               (* static volatile int64_t *)
  gpio_evt_queue : queue gpio_event_t;   (* static QueueHandle_t *)
  buzzer : Z                             (* level driven on BUZZER_GPIO *)
}.

(** The globals once [app_main] has returned. *)
Definition boot : state :=
  {| last_interrupt_time := 0; gpio_evt_queue := xQueueCreate 10;
     buzzer := 0 |}.

(** What one run of the handler did: returned at the debounce check, or
    built [evt] and handed it to [xQueueSendFromISR], which answered
    [ok]. *)
Inductive isr_outcome : Type :=
| Bounced
| Sent (evt : gpio_event_t) (ok : bool).

Definition gpio_isr_handler (arg : Z) (e : raw_edge) (s : state)
  : state * isr_outcome :=
  let current_time := timestamp_us e in
  if sub_int64 current_time (last_interrupt_time s) <? DEBOUNCE_TIME_US
  then (s, Bounced)
  else
    let gpio_num := to_uint32 arg in
    let level := to_uint32 (sampled_level e) in
    let evt := {| gpio_num := gpio_num; level := level |} in
    let (q, ok) := xQueueSendFromISR (gpio_evt_queue s) evt in
    ({| last_interrupt_time := current_time; gpio_evt_queue := q;
        buzzer := buzzer s |}, Sent evt ok).

(** One turn of the [while (1)] loop of [gpio_task]; [None] while
    [xQueueReceive] blocks. *)
Definition gpio_task (s : state) : option state :=
  match xQueueReceive (gpio_evt_queue s) with
  | None => None
  | Some (evt, q) =>
      let out := if level evt =? 0 then 1 else 0 in
      Some {| last_interrupt_time := last_interrupt_time s;
              gpio_evt_queue := q; buzzer := out |}
  end.

(** The timestamp of the edge is a value of the microsecond clock. *)
Definition edge_in_time (e : raw_edge) : Prop := is_time_us (timestamp_us e).

(** The handler run on a sequence of edges. *)
Fixpoint isr_trace (arg : Z) (es : list raw_edge) (s : state)
  : list (raw_edge * isr_outcome) :=
  match es with
  | [] => []
  | e :: rest =>
      let (s1, o) := gpio_isr_handler arg e s in
      (e, o) :: isr_trace arg rest s1
  end.

Fixpoint isr_run (arg : Z) (es : list raw_edge) (s : state) : state :=
  match es with
  | [] => s
  | e :: rest => isr_run arg rest (fst (gpio_isr_handler arg e s))
  end.

Definition produced (o : isr_outcome) : bool :=
  match o with
  | Bounced => false
  | Sent _ _ => true
  end.

(** The edges that passed the debounce check, in arrival order. *)
Definition accepted_edges (arg : Z) (es : list raw_edge) (s : state)
  : list raw_edge :=
  map fst (filter (fun eo => produced (snd eo)) (isr_trace arg es s)).

(** Consecutive timestamps at least the settle window apart, the first
    one counted from [prev]. *)
Fixpoint spaced (prev : Z) (ts : list Z) : Prop :=
  match ts with
  | [] => True
  | t :: rest => DEBOUNCE_TIME_US <= t - prev /\ spaced t rest
  end.

(** The event the handler builds for an edge that passes the check. *)
Definition event_of (arg : Z) (e : raw_edge) : gpio_event_t :=
  {| gpio_num := to_uint32 arg; level := to_uint32 (sampled_level e) |}.

(** The buzzer level the task drives for an event. *)
Definition sound (evt : gpio_event_t) : Z := if level evt =? 0 then 1 else 0.

(** [n] turns of the task; [None] when one of them blocks. *)
Fixpoint task_run (n : nat) (s : state) : option state :=
  match n with
  | O => Some s
  | S k =>
      match gpio_task s with
      | None => None
      | Some s1 => task_run k s1
      end
  end.

(** Handler and task interleaved: an edge runs the handler, a turn runs the
    task, which does nothing while the queue is empty. *)
Inductive action : Type :=
| Edge (e : raw_edge)
| Turn.

Fixpoint exec (arg : Z) (acts : list action) (s : state)
  : state * list raw_edge :=
  match acts with
  | [] => (s, [])
  | Edge e :: rest =>
      let (s1, o) := gpio_isr_handler arg e s in
      let (s2, acc) := exec arg rest s1 in
      (s2, if produced o then e :: acc else acc)
  | Turn :: rest =>
      match gpio_task s with
      | None => exec arg rest s
      | Some s1 => exec arg rest s1
      end
  end.

Fixpoint edges_of (acts : list action) : list raw_edge :=
  match acts with
  | [] => []
  | Edge e :: rest => e :: edges_of rest
  | Turn :: rest => edges_of rest
  end.

End Doorbell.

(** * The doorbell that reads the button in the task
      (runs/2026-02-12_18-59-37, first program) *)

Module DoorbellReread.
Import Int Queue.

Definition BUTTON_GPIO : Z := 21.
Definition BUZZER_GPIO : Z := 13.
Definition DEBOUNCE_TIME_US : Z := 50000.

Record state : Type := mkState {
  last_interrupt_time : Z;     (* static volatile int64_t *)
  gpio_evt_queue : queue Z;    (* queue of uint32_t pin numbers *)
  buzzer : Z                   (* level driven on BUZZER_GPIO *)
}.

Definition boot : state :=
  {| last_interrupt_time := 0; gpio_evt_queue := xQueueCreate 10;
     buzzer := 0 |}.

(** [current_time] is what [esp_timer_get_time ()] returns.  The second
    component tells whether the handler reached [xQueueSendFromISR]. *)
Definition gpio_isr_handler (arg : Z) (current_time : Z) (s : state)
  : state * bool :=
  if sub_int64 current_time (last_interrupt_time s) >? DEBOUNCE_TIME_US
  then
    let gpio_num := to_uint32 arg in
    let (q, _) := xQueueSendFromISR (gpio_evt_queue s) gpio_num in
    ({| last_interrupt_time := current_time; gpio_evt_queue := q;
        buzzer := buzzer s |}, true)
  else (s, false).

(** One turn of the loop of [gpio_task]; [pin_now] is what
    [gpio_get_level (BUTTON_GPIO)] returns when the task runs. *)
Definition gpio_task (pin_now : Z) (s : state) : option state :=
  match xQueueReceive (gpio_evt_queue s) with
  | None => None
  | Some (io_num, q) =>
      let button_state := pin_now in
      let out := if button_state =? 0 then 1 else 0 in
      Some {| last_interrupt_time := last_interrupt_time s;
              gpio_evt_queue := q; buzzer := out |}
  end.

(** The timestamps the handler accepts among [ts], in arrival order. *)
Fixpoint isr_accepted (arg : Z) (ts : list Z) (s : state) : list Z :=
  match ts with
  | [] => []
  | t :: rest =>
      let (s1, sent) := gpio_isr_handler arg t s in
      if sent then t :: isr_accepted arg rest s1
      else isr_accepted arg rest s1
  end.

(** Consecutive timestamps more than the settle window apart, the first
    one counted from [prev]. *)
Fixpoint apart (prev : Z) (ts : list Z) : Prop :=
  match ts with
  | [] => True
  | t :: rest => DEBOUNCE_TIME_US < t - prev /\ apart t rest
  end.

End DoorbellReread.

(** * Calls into the HAL *)

Module Hal.

(** A timer instance, as the driver or the kernel knows it. *)
Definition handle : Type := nat.

Inductive call : Type :=
| gpio_set_level (gpio lvl : Z)
| vTaskDelay (ticks : Z)
| gptimer_new_timer (resolution_hz : Z) (h : handle)
| gptimer_register_event_callbacks (h : handle)
| gptimer_set_alarm_action (h : handle) (reload_count alarm_count : Z)
    (auto_reload_on_alarm : bool)
| gptimer_enable (h : handle)
| gptimer_start (h : handle)
| gptimer_stop (h : handle)
| gptimer_disable (h : handle)
| gptimer_del_timer (h : handle)
| xTimerStop (h : handle)
| xTimerChangePeriod (h : handle) (ticks : Z)
| xTimerStart (h : handle)
| xTimerDelete (h : handle).   (* in the API, called by no program *)

Definition call_eqb (a b : call) : bool :=
  match a, b with
  | gpio_set_level g l, gpio_set_level g' l' => (g =? g') && (l =? l')
  | vTaskDelay t, vTaskDelay t' => t =? t'
  | gptimer_new_timer r h, gptimer_new_timer r' h' =>
      (r =? r') && Nat.eqb h h'
  | gptimer_register_event_callbacks h,
    gptimer_register_event_callbacks h' => Nat.eqb h h'
  | gptimer_set_alarm_action h r a f,
    gptimer_set_alarm_action h' r' a' f' =>
      Nat.eqb h h' && (r =? r') && (a =? a') && Bool.eqb f f'
  | gptimer_enable h, gptimer_enable h' => Nat.eqb h h'
  | gptimer_start h, gptimer_start h' => Nat.eqb h h'
  | gptimer_stop h, gptimer_stop h' => Nat.eqb h h'
  | gptimer_disable h, gptimer_disable h' => Nat.eqb h h'
  | gptimer_del_timer h, gptimer_del_timer h' => Nat.eqb h h'
  | xTimerStop h, xTimerStop h' => Nat.eqb h h'
  | xTimerChangePeriod h t, xTimerChangePeriod h' t' =>
      Nat.eqb h h' && (t =? t')
  | xTimerStart h, xTimerStart h' => Nat.eqb h h'
  | xTimerDelete h, xTimerDelete h' => Nat.eqb h h'
  | _, _ => false
  end.

(** The timer a call acts on. *)
Definition target (c : call) : option handle :=
  match c with
  | gpio_set_level _ _ | vTaskDelay _ => None
  | gptimer_new_timer _ h | gptimer_register_event_callbacks h
  | gptimer_set_alarm_action h _ _ _ | gptimer_enable h | gptimer_start h
  | gptimer_stop h | gptimer_disable h | gptimer_del_timer h
  | xTimerStop h | xTimerChangePeriod h _ | xTimerStart h
  | xTimerDelete h => Some h
  end.

(** Calls that give a timer a period or set it going. *)
Definition applies (c : call) : bool :=
  match c with
  | gptimer_set_alarm_action _ _ _ _ | gptimer_enable _ | gptimer_start _
  | xTimerChangePeriod _ _ | xTimerStart _ => true
  | _ => false
  end.

(** [pat] occurs in [l] in this order, not necessarily contiguously. *)
Fixpoint subseq (pat l : list call) : bool :=
  match pat, l with
  | [], _ => true
  | _ :: _, [] => false
  | p :: ps, c :: cs => if call_eqb p c then subseq ps cs else subseq pat cs
  end.

(** The calls made before the first one that applies a period or sets a
    timer going. *)
Fixpoint before_apply (l : list call) : list call :=
  match l with
  | [] => []
  | c :: cs => if applies c then [] else c :: before_apply cs
  end.

(** Timer [h] is stopped and released (stop, disable, destroy for a
    general purpose timer; stop, delete for a kernel timer) before any
    period is applied and before any timer is set going. *)
Definition released_before_apply (h : handle) (l : list call) : bool :=
  subseq [gptimer_stop h; gptimer_disable h; gptimer_del_timer h]
         (before_apply l)
  || subseq [xTimerStop h; xTimerDelete h] (before_apply l).

(** Whether timer [h] runs after the calls [l], oldest first. *)
Definition running_step (h : handle) (r : bool) (c : call) : bool :=
  match c with
  | gptimer_start h' | xTimerStart h' | xTimerChangePeriod h' _ =>
      if Nat.eqb h h' then true else r
  | gptimer_stop h' | gptimer_del_timer h' | xTimerStop h'
  | xTimerDelete h' => if Nat.eqb h h' then false else r
  | _ => r
  end.

Definition running (h : handle) (r0 : bool) (l : list call) : bool :=
  fold_left (running_step h) l r0.

(** No period is written into a timer that runs at that point: [r0 h]
    tells which timers run before the calls [l]. *)
Fixpoint no_write_while_running (r0 : handle -> bool) (done l : list call)
  : bool :=
  match l with
  | [] => true
  | c :: cs =>
      (match c with
       | gptimer_set_alarm_action h _ _ _ | xTimerChangePeriod h _ =>
           negb (running h (r0 h) done)
       | _ => true
       end) && no_write_while_running r0 (done ++ [c]) cs
  end.

(** The waveform generator of the general purpose timer program as its
    calls leave it.  With the 1 MHz resolution the program configures, the
    alarm count is a period in microseconds. *)
Inductive waveform : Type :=
| Disabled
| Enabled (period_us : Z).

Record generator : Type := mkGen { alarm : Z; output : waveform }.

Definition generator_step (g : generator) (c : call) : generator :=
  match c with
  | gptimer_set_alarm_action _ _ a _ => {| alarm := a; output := output g |}
  | gptimer_start _ => {| alarm := alarm g; output := Enabled (alarm g) |}
  | gptimer_stop _ | gptimer_del_timer _ =>
      {| alarm := alarm g; output := Disabled |}
  | _ => g
  end.

Definition generator_after (g : generator) (l : list call) : generator :=
  fold_left generator_step l g.

Definition waveform_after (l : list call) : waveform :=
  output (generator_after {| alarm := 0; output := Disabled |} l).

(** The general purpose timers created and not yet deleted after the
    calls [l], oldest first; [alive] are those that exist before. *)
Definition live_step (alive : list handle) (c : call) : list handle :=
  match c with
  | gptimer_new_timer _ h => alive ++ [h]
  | gptimer_del_timer h => filter (fun a => negb (Nat.eqb a h)) alive
  | _ => alive
  end.

Definition live_after (alive : list handle) (l : list call) : list handle :=
  fold_left live_step l alive.

(** The level of pin [gpio] after the calls [l], [lvl] before. *)
Definition pin_step (gpio : Z) (lvl : Z) (c : call) : Z :=
  match c with
  | gpio_set_level g v => if g =? gpio then v else lvl
  | _ => lvl
  end.

Definition pin_after (gpio lvl : Z) (l : list call) : Z :=
  fold_left (pin_step gpio) l lvl.

(** The largest number of general purpose timers alive at any point of the
    calls [l], counting the point before the first call. *)
Fixpoint peak_live (alive : list handle) (l : list call) : nat :=
  match l with
  | [] => length alive
  | c :: cs => Nat.max (length alive) (peak_live (live_step alive c) cs)
  end.

(** The alarm counts handed to the driver, in call order. *)
Fixpoint programmed (l : list call) : list Z :=
  match l with
  | [] => []
  | gptimer_set_alarm_action _ _ a _ :: cs => a :: programmed cs
  | _ :: cs => programmed cs
  end.

End Hal.

(** * Button, buzzer and LED on a general purpose timer
      (runs/2026-02-12_18-59-37, third program) *)

Module Blinker.
Import Int Hal.

Definition BUTTON_GPIO : Z := 21.
Definition BUZZER_GPIO : Z := 13.
Definition LED_GPIO : Z := 9.
Definition BUZZER_DURATION_MS : Z := 100.
Definition debounce_time_ms : Z := 50.

Definition timer_periods : list Z := [500000; 250000; 125000; 0].

Record world : Type := mkWorld {
  led_timer : option handle;   (* static gptimer_handle_t, NULL at boot *)
  button_press_count : Z;      (* static uint8_t *)
  last_interrupt_time : Z;     (* static volatile uint32_t *)
  main_task_handle : bool;     (* static in the handler: non-NULL? *)
  task_created : bool;         (* a task named "main_task" exists *)
  notifications : nat;         (* notification value of that task *)
  next_timer : handle          (* the instance the driver creates next *)
}.

(** The globals once [app_main] has returned. *)
Definition boot : world :=
  {| led_timer := None; button_press_count := 0; last_interrupt_time := 0;
     main_task_handle := false; task_created := true; notifications := 0;
     next_timer := 0%nat |}.

Definition set_led_timer (t : option handle) (w : world) : world :=
  {| led_timer := t; button_press_count := button_press_count w;
     last_interrupt_time := last_interrupt_time w;
     main_task_handle := main_task_handle w;
     task_created := task_created w; notifications := notifications w;
     next_timer := next_timer w |}.

(** [gptimer_new_timer]: the driver hands out a new instance. *)
Definition new_timer (w : world) : handle * world :=
  (next_timer w,
   {| led_timer := led_timer w; button_press_count := button_press_count w;
      last_interrupt_time := last_interrupt_time w;
      main_task_handle := main_task_handle w;
      task_created := task_created w; notifications := notifications w;
      next_timer := S (next_timer w) |}).

(** The calls under [ESP_ERROR_CHECK] return [ESP_OK]; the program aborts
    otherwise.  The status of the three release calls is not looked
    at. *)
Definition configure_led_timer (mode : Z) (w : world) : world * list call :=
  let (w1, released) :=
    match led_timer w with
    | Some t =>
        (set_led_timer None w,
         [gptimer_stop t; gptimer_disable t; gptimer_del_timer t;
          gpio_set_level LED_GPIO 0])
    | None => (w, [])
    end in
  if mode <? 3 then
    let (t, w2) := new_timer w1 in
    (set_led_timer (Some t) w2,
     released ++
     [gptimer_new_timer 1000000 t;
      gptimer_register_event_callbacks t;
      gptimer_set_alarm_action t 0 (nth (Z.to_nat mode) timer_periods 0)
        true;
      gptimer_enable t;
      gptimer_start t])
  else (w1, released).

(** Along the calls [log] at most one timer was ever alive, and the one
    alive at the end is the one [led_timer] points to. *)
Definition one_timer (w : world) (log : list call) : Prop :=
  live_after [] log = match led_timer w with Some t => [t] | None => [] end
  /\ (peak_live [] log <= 1)%nat.

(** [configure_led_timer] called with one mode after the other; the calls
    accumulate in [log]. *)
Fixpoint configure_all (modes : list Z) (w : world) (log : list call)
  : world * list call :=
  match modes with
  | [] => (w, log)
  | m :: rest =>
      let (w1, calls) := configure_led_timer m w in
      configure_all rest w1 (log ++ calls)
  end.

(** The LED: [led_state] is the static of [led_timer_callback], [led_pin]
    the level driven on [LED_GPIO]. *)
Record led : Type := mkLed { led_state : Z; led_pin : Z }.

Definition led_boot : led := {| led_state := 0; led_pin := 0 |}.

Definition led_timer_callback (l : led) : led :=
  let st := lnot (led_state l) in
  {| led_state := st; led_pin := st |}.

(** What a call of the task does to the LED. *)
Definition led_write (l : led) (c : call) : led :=
  match c with
  | gpio_set_level g v =>
      if g =? LED_GPIO then {| led_state := led_state l; led_pin := v |}
      else l
  | _ => l
  end.

Section Ticks.
(** The kernel's tick configuration is not in the repository: the two
    macros that depend on it are parameters. *)
Variable portTICK_PERIOD_MS : Z.
Variable pdMS_TO_TICKS : Z -> Z.

Definition activate_buzzer : list call :=
  [gpio_set_level BUZZER_GPIO 1;
   vTaskDelay (pdMS_TO_TICKS BUZZER_DURATION_MS);
   gpio_set_level BUZZER_GPIO 0].

(** [ticks] is what [xTaskGetTickCountFromISR ()] returns. *)
Definition button_isr_handler (ticks : Z) (w : world) : world :=
  let current_time := to_uint32 (ticks * portTICK_PERIOD_MS) in
  if sub_uint32 current_time (last_interrupt_time w) >? debounce_time_ms
  then
    let count := to_uint8 (Z.rem (button_press_count w + 1) 4) in
    let handle_found :=
      if main_task_handle w then true else task_created w in
    {| led_timer := led_timer w; button_press_count := count;
       last_interrupt_time := current_time;
       main_task_handle := handle_found;
       task_created := task_created w;
       notifications :=
         if handle_found then S (notifications w) else notifications w;
       next_timer := next_timer w |}
  else w.

(** One turn of the loop of [main_task]; [None] while
    [ulTaskNotifyTake (pdTRUE, portMAX_DELAY)] blocks. *)
Definition main_task (w : world) : option (world * list call) :=
  match notifications w with
  | O => None
  | S _ =>
      let w1 :=
        {| led_timer := led_timer w;
           button_press_count := button_press_count w;
           last_interrupt_time := last_interrupt_time w;
           main_task_handle := main_task_handle w;
           task_created := task_created w; notifications := 0;
           next_timer := next_timer w |} in
      let (w2, calls) := configure_led_timer (button_press_count w1) w1 in
      Some (w2, activate_buzzer ++ calls)
  end.

(** A button press seen by the handler and then served by the task. *)
Definition press (ticks : Z) (w : world) : option (world * list call) :=
  main_task (button_isr_handler ticks w).

(** Presses served one after the other; the calls accumulate. *)
Fixpoint presses (ts : list Z) (w : world) (log : list call)
  : option (world * list call) :=
  match ts with
  | [] => Some (w, log)
  | t :: rest =>
      match press t w with
      | None => None
      | Some (w1, calls) => presses rest w1 (log ++ calls)
      end
  end.

(** The globals when the task wakes up after an accepted press at tick
    [t]: the counter has advanced and the notification is taken. *)
Definition woken (t : Z) (w : world) : world :=
  {| led_timer := led_timer w;
     button_press_count := (button_press_count w + 1) mod 4;
     last_interrupt_time := to_uint32 (t * portTICK_PERIOD_MS);
     main_task_handle := true;
     task_created := true;
     notifications := 0;
     next_timer := next_timer w |}.

(** A turn of [main_task] in two halves, either side of the point where
    [button_press_count] is read: the first takes the notification and
    sounds the buzzer, the second looks the counter up and reconfigures the
    LED timer.  The handler can run between the two. *)
Definition main_task_take (w : world) : option (world * list call) :=
  match notifications w with
  | O => None
  | S _ =>
      Some ({| led_timer := led_timer w;
               button_press_count := button_press_count w;
               last_interrupt_time := last_interrupt_time w;
               main_task_handle := main_task_handle w;
               task_created := task_created w; notifications := 0;
               next_timer := next_timer w |},
            activate_buzzer)
  end.

Definition main_task_configure (w : world) : world * list call :=
  configure_led_timer (button_press_count w) w.

(** Where the task stands: at [ulTaskNotifyTake], or past the buzzer pulse
    and about to read the counter. *)
Inductive task_pc : Type :=
| AtTake
| AtConfigure.

(** Interrupts and task progress in the order they happen: [Isr ticks]
    runs the handler, [Run] lets the task do its next half turn, which is
    nothing while it is blocked. *)
Inductive sched_step : Type :=
| Isr (ticks : Z)
| Run.

Fixpoint schedule (steps : list sched_step) (w : world) (pc : task_pc)
    (log : list call) : world * task_pc * list call :=
  match steps with
  | [] => (w, pc, log)
  | Isr t :: rest => schedule rest (button_isr_handler t w) pc log
  | Run :: rest =>
      match pc with
      | AtTake =>
          match main_task_take w with
          | None => schedule rest w AtTake log
          | Some (w1, calls) => schedule rest w1 AtConfigure (log ++ calls)
          end
      | AtConfigure =>
          let (w1, calls) := main_task_configure w in
          schedule rest w1 AtTake (log ++ calls)
      end
  end.

(** Each press served in full before the next arrives. *)
Definition one_by_one (ts : list Z) : list sched_step :=
  flat_map (fun t => [Isr t; Run; Run]) ts.

(** The handler alone, run once per tick value of the list. *)
Definition isr_run (ts : list Z) (w : world) : world :=
  fold_left (fun w0 t => button_isr_handler t w0) ts w.

(** Every press of the sequence passes the debounce check of the
    handler; [prev] is the time of the last accepted one. *)
Fixpoint debounced (prev : Z) (ts : list Z) : Prop :=
  match ts with
  | [] => True
  | t :: rest =>
      let now := to_uint32 (t * portTICK_PERIOD_MS) in
      sub_uint32 now prev > debounce_time_ms /\ debounced now rest
  end.

End Ticks.

End Blinker.

(** * Button, buzzer and LED on a kernel timer (src/unnamed/part_001) *)

Module SwBlinker.
Import Int Hal.

Definition BUTTON_GPIO : Z := 21.
Definition BUZZER_GPIO : Z := 13.
Definition LED_GPIO : Z := 9.
Definition BUZZER_DURATION_MS : Z := 100.

Record world : Type := mkWorld {
  led_timer : option handle;   (* static TimerHandle_t *)
  button_state : Z;            (* static volatile uint8_t *)
  led_state : bool             (* static volatile bool *)
}.

(** The globals once [app_main] has created the timer [t]. *)
Definition boot (t : handle) : world :=
  {| led_timer := Some t; button_state := 0; led_state := false |}.

Section Ticks.
Variable pdMS_TO_TICKS : Z -> Z.

(** The period of the timer for each value of [button_state]. *)
Definition period_ms (st : Z) : option Z :=
  if st =? 0 then Some 500
  else if st =? 1 then Some 250
  else if st =? 2 then Some 125
  else None.

(** The [switch]: [None] when it reaches the kernel with a NULL timer,
    where the kernel's assertion fails. *)
Definition apply_state (w : world) : option (world * list call) :=
  match period_ms (button_state w) with
  | Some ms =>
      match led_timer w with
      | Some t =>
          Some (w, [xTimerChangePeriod t (pdMS_TO_TICKS ms);
                    xTimerStart t])
      | None => None
      end
  | None =>
      if button_state w =? 3
      then Some ({| led_timer := led_timer w;
                    button_state := button_state w;
                    led_state := false |},
                 [gpio_set_level LED_GPIO 0])
      else Some (w, [])
  end.

(** One turn of the loop of [button_task] once the notification has
    arrived.  [pin] is the button level read after the 50 ms delay,
    [active] what [xTimerIsTimerActive] answers, [polls] the number of
    times the button still reads 1 in the release loop. *)
Definition button_task (pin : Z) (active : bool) (polls : nat) (w : world)
  : option (world * list call) :=
  if pin =? 1 then
    let buzz :=
      [gpio_set_level BUZZER_GPIO 1;
       vTaskDelay (pdMS_TO_TICKS BUZZER_DURATION_MS);
       gpio_set_level BUZZER_GPIO 0] in
    let stop :=
      match led_timer w with
      | Some t => if active then [xTimerStop t] else []
      | None => []
      end in
    match apply_state w with
    | None => None
    | Some (w1, calls) =>
        let w2 :=
          {| led_timer := led_timer w1;
             button_state := to_uint8 (Z.rem (button_state w1 + 1) 4);
             led_state := led_state w1 |} in
        Some (w2,
              [vTaskDelay (pdMS_TO_TICKS 50)] ++ buzz ++ stop ++ calls
              ++ repeat (vTaskDelay (pdMS_TO_TICKS 10)) polls
              ++ [vTaskDelay (pdMS_TO_TICKS 50)])
    end
  else Some (w, [vTaskDelay (pdMS_TO_TICKS 50)]).

(** Turns served one after the other, each for a button that reads 1;
    every turn comes with its own answers [(active, polls)]. *)
Fixpoint turns (envs : list (bool * nat)) (w : world) : option world :=
  match envs with
  | [] => Some w
  | (active, polls) :: rest =>
      match button_task 1 active polls w with
      | None => None
      | Some (w1, _) => turns rest w1
      end
  end.

(** The callback of the kernel timer. *)
Definition led_timer_callback (w : world) : world * list call :=
  let st := negb (led_state w) in
  ({| led_timer := led_timer w; button_state := button_state w;
      led_state := st |},
   [gpio_set_level LED_GPIO (if st then 1 else 0)]).

(** Alarms of the timer and served presses in the order they happen; the
    calls accumulate in [log]. *)
Inductive event : Type :=
| Alarm
| Press (active : bool) (polls : nat).

Fixpoint run (evs : list event) (w : world) (log : list call)
  : option (world * list call) :=
  match evs with
  | [] => Some (w, log)
  | Alarm :: rest =>
      let (w1, calls) := led_timer_callback w in
      run rest w1 (log ++ calls)
  | Press active polls :: rest =>
      match button_task 1 active polls w with
      | None => None
      | Some (w1, calls) => run rest w1 (log ++ calls)
      end
  end.

(** The timer calls among those of one turn. *)
Definition timer_calls (l : list call) : list call :=
  filter (fun c => match target c with Some _ => true | None => false end)
         l.

End Ticks.

End SwBlinker.

(** * The doorbell that queues the level alone
      (runs/2026-02-12_19-38-55) *)

Module DoorbellLevel.
Import Int Queue.

Definition BUTTON_GPIO : Z := 21.
Definition BUZZER_GPIO : Z := 13.
Definition DEBOUNCE_TIME_US : Z := 50000.

Record state : Type := mkState {
  last_interrupt_time : Z;     (* static volatile int64_t *)
  gpio_evt_queue : queue Z;    (* queue of int levels *)
  buzzer : Z                   (* level driven on BUZZER_GPIO *)
}.

Definition boot : state :=
  {| last_interrupt_time := 0; gpio_evt_queue := xQueueCreate 10;
     buzzer := 0 |}.

(** [current_time] is what [esp_timer_get_time ()] returns, [pin] what
    [gpio_get_level (BUTTON_GPIO)] returns in the handler.  The second
    component tells whether the handler reached [xQueueSendFromISR]. *)
Definition gpio_isr_handler (current_time pin : Z) (s : state)
  : state * bool :=
  if sub_int64 current_time (last_interrupt_time s) <? DEBOUNCE_TIME_US
  then (s, false)
  else
    let button_state := pin in
    let (q, _) := xQueueSendFromISR (gpio_evt_queue s) button_state in
    ({| last_interrupt_time := current_time; gpio_evt_queue := q;
        buzzer := buzzer s |}, true).

(** One turn of the loop of [buzzer_control_task]. *)
Definition buzzer_control_task (s : state) : option state :=
  match xQueueReceive (gpio_evt_queue s) with
  | None => None
  | Some (button_state, q) =>
      let out := if button_state =? 0 then 1 else 0 in
      Some {| last_interrupt_time := last_interrupt_time s;
              gpio_evt_queue := q; buzzer := out |}
  end.

(** Handler and task interleaved, on the actions of [Doorbell]. *)
Fixpoint exec (acts : list Doorbell.action) (s : state)
  : state * list Doorbell.raw_edge :=
  match acts with
  | [] => (s, [])
  | Doorbell.Edge e :: rest =>
      let (s1, sent) :=
        gpio_isr_handler (Doorbell.timestamp_us e) (Doorbell.sampled_level e)
          s in
      let (s2, acc) := exec rest s1 in
      (s2, if sent then e :: acc else acc)
  | Doorbell.Turn :: rest =>
      match buzzer_control_task s with
      | None => exec rest s
      | Some s1 => exec rest s1
      end
  end.

End DoorbellLevel.

(** * Two LEDs on two timers
      (runs/2026-02-12_18-59-37, second program) *)

Module DualTimer.
Import Int.

Definition LED1_GPIO : Z := 13.
Definition LED2_GPIO : Z := 21.
Definition TIMER1_INTERVAL_MS : Z := 500.
Definition TIMER2_INTERVAL_MS : Z := 1000.

Record leds : Type := mkLeds {
  led_state1 : Z;   (* static uint8_t of timer1_callback *)
  led_state2 : Z;   (* static uint8_t of timer2_callback *)
  led1 : Z;         (* level driven on LED1_GPIO *)
  led2 : Z          (* level driven on LED2_GPIO *)
}.

(** After [app_main] has driven both LEDs low. *)
Definition boot : leds :=
  {| led_state1 := 0; led_state2 := 0; led1 := 0; led2 := 0 |}.

Definition timer1_callback (l : leds) : leds * bool :=
  let st := to_uint8 (lnot (led_state1 l)) in
  ({| led_state1 := st; led_state2 := led_state2 l; led1 := st;
      led2 := led2 l |}, false).

Definition timer2_callback (l : leds) : leds * bool :=
  let st := to_uint8 (lnot (led_state2 l)) in
  ({| led_state1 := led_state1 l; led_state2 := st; led1 := led1 l;
      led2 := st |}, false).

(** Alarms in the order they fire: [true] for timer 1, [false] for
    timer 2. *)
Definition alarms (fired : list bool) (l : leds) : leds :=
  fold_left
    (fun l0 (first : bool) =>
       if first then fst (timer1_callback l0) else fst (timer2_callback l0))
    fired l.

End DualTimer.

(** * The LED toggled in a loop (src/unnamed/part_002) *)

Module Toggle.
Import Int Hal.

Definition LED_GPIO : Z := 13.
Definition TOGGLE_PERIOD_MS : Z := 500.

Record locals : Type := mkLocals {
  toggle_count : Z;   (* uint32_t *)
  led_state : bool
}.

Section Ticks.
Variable pdMS_TO_TICKS : Z -> Z.

(** One turn of the toggle loop. *)
Definition toggle (l : locals) : locals * list call :=
  let st := negb (led_state l) in
  ({| toggle_count := to_uint32 (toggle_count l + 1); led_state := st |},
   [gpio_set_level LED_GPIO (if st then 1 else 0);
    vTaskDelay (pdMS_TO_TICKS TOGGLE_PERIOD_MS)]).

Fixpoint toggles (n : nat) (l : locals) : locals * list call :=
  match n with
  | O => (l, [])
  | S k =>
      let (l1, c1) := toggle l in
      let (l2, c2) := toggles k l1 in
      (l2, c1 ++ c2)
  end.

(** [app_main] up to [n] turns of its loop; [config_ok] tells whether
    [gpio_config] returned [ESP_OK]. *)
Definition app_main (config_ok : bool) (n : nat) : locals * list call :=
  if config_ok then
    let (l, calls) :=
      toggles n {| toggle_count := 0; led_state := false |} in
    (l, gpio_set_level LED_GPIO 0 :: calls)
  else ({| toggle_count := 0; led_state := false |}, []).

End Ticks.

End Toggle.

(** * Facts on machine integers *)

Section IntFacts.
Import Int.

Lemma to_int64_small (x : Z) :
  - 2 ^ 63 <= x < 2 ^ 63 -> to_int64 x = x.
Proof.
  intros Hx. unfold to_int64.
  rewrite Z.mod_small; lia.
Qed.

Lemma sub_int64_times (a b : Z) :
  is_time_us a -> is_time_us b -> sub_int64 a b = a - b.
Proof.
  unfold is_time_us, sub_int64. intros Ha Hb.
  apply to_int64_small. lia.
Qed.

Lemma to_uint8_small (x : Z) : 0 <= x < 2 ^ 8 -> to_uint8 x = x.
Proof. intros Hx. unfold to_uint8. apply Z.mod_small; lia. Qed.

(** [(c + 1) % 4] stored back into a [uint8_t]. *)
Lemma advance_mod (c : Z) :
  0 <= c -> to_uint8 (Z.rem (c + 1) 4) = (c + 1) mod 4.
Proof.
  intros Hc. rewrite Z.rem_mod_nonneg by lia.
  apply to_uint8_small.
  assert (0 <= (c + 1) mod 4 < 4) by (apply Z.mod_pos_bound; lia). lia.
Qed.

End IntFacts.

(** * The event queue *)

Section QueueFacts.
Import Queue.
Context {A : Type}.

Lemma send_full (q : queue A) (x : A) :
  is_full q = true -> xQueueSendFromISR q x = (q, false).
Proof. intros Hf. unfold xQueueSendFromISR. now rewrite Hf. Qed.

Lemma send_room (q : queue A) (x : A) :
  is_full q = false ->
  xQueueSendFromISR q x =
    ({| uxLength := uxLength q; items := items q ++ [x] |}, true).
Proof. intros Hf. unfold xQueueSendFromISR. now rewrite Hf. Qed.

(** A push never takes the queue beyond its capacity. *)
Lemma send_bounded (q : queue A) (x : A) :
  (length (items q) <= uxLength q)%nat ->
  (length (items (fst (xQueueSendFromISR q x))) <= uxLength q)%nat.
Proof.
  intros Hb. unfold xQueueSendFromISR.
  destruct (is_full q) eqn:Hf; simpl; [exact Hb|].
  unfold is_full in Hf. apply Nat.leb_gt in Hf.
  rewrite length_app. simpl. lia.
Qed.

Lemma step_fifo (h : history A) (o : op A) : fifo h -> fifo (step h o).
Proof.
  intros [Hord Hcap]. destruct o as [x|]; unfold step.
  - unfold xQueueSendFromISR. destruct (is_full (chan h)) eqn:Hf.
    + split; assumption.
    + unfold is_full in Hf. apply Nat.leb_gt in Hf.
      split; simpl.
      * now rewrite app_assoc, Hord.
      * rewrite length_app. simpl. lia.
  - unfold xQueueReceive. destruct (items (chan h)) as [|x rest] eqn:Hi.
    + split; [now rewrite Hi|now rewrite Hi].
    + split; simpl.
      * now rewrite <- app_assoc.
      * simpl in Hcap. lia.
Qed.

Lemma run_fifo (ops : list (op A)) (h : history A) :
  fifo h -> fifo (run h ops).
Proof.
  revert h. induction ops as [|o ops IH]; intros h Hh; simpl.
  - exact Hh.
  - apply IH, step_fifo, Hh.
Qed.

(** Draining the queue hands over its content, oldest first. *)
Lemma receive_all_drains (n : nat) (q : queue A) :
  (length (items q) <= n)%nat ->
  receive_all n q = (items q, {| uxLength := uxLength q; items := [] |}).
Proof.
  revert q. induction n as [|n IH]; intros [cap l] Hn; simpl in *.
  - destruct l; [reflexivity|simpl in Hn; lia].
  - unfold xQueueReceive. simpl. destruct l as [|x rest]; [reflexivity|].
    simpl in Hn. rewrite IH by (simpl; lia). reflexivity.
Qed.

End QueueFacts.

(** C4.  The event queue is a bounded FIFO that drops the newest item when
    full.  Fifteen pushes into the empty queue of capacity 10 that
    [app_main] creates, with no consumer running: the first ten succeed and
    are kept, the last five fail and are dropped; the consumer then
    receives exactly those ten, in push order, and blocks on the eleventh
    call.  In every run of pushes and pops, the items delivered so far
    followed by the items still queued are the items pushed with success,
    in push order. *)
Theorem event_channel_fifo_drop_newest
    (es : list Doorbell.gpio_event_t) (Hlen : length es = 15%nat) :
  let q0 := Doorbell.gpio_evt_queue Doorbell.boot in
  let q1 := fst (Queue.send_all q0 es) in
  Queue.uxLength q0 = 10%nat
  /\ Queue.items q1 = firstn 10 es
  /\ snd (Queue.send_all q0 es) = repeat true 10 ++ repeat false 5
  /\ fst (Queue.receive_all 15 q1) = firstn 10 es
  /\ Queue.xQueueReceive (snd (Queue.receive_all 15 q1)) = None
  /\ forall (cap : nat) (ops : list (Queue.op Doorbell.gpio_event_t)),
       let h := Queue.run (Queue.start (Queue.xQueueCreate cap)) ops in
       Queue.delivered h ++ Queue.items (Queue.chan h) = Queue.pushed h
       /\ (length (Queue.items (Queue.chan h)) <= cap)%nat.
Proof.
  do 16 (destruct es as [|? es]; try discriminate Hlen).
  repeat split; try reflexivity.
  - apply (run_fifo ops (Queue.start (Queue.xQueueCreate cap))).
    split; simpl; [reflexivity|lia].
  - assert (Hf : Queue.fifo (Queue.run (Queue.start (Queue.xQueueCreate cap)) ops)).
    { apply run_fifo. split; simpl; [reflexivity|lia]. }
    destruct Hf as [_ Hcap].
    assert (Hc : forall (l : list (Queue.op Doorbell.gpio_event_t)) h,
               Queue.uxLength (Queue.chan (Queue.run h l))
               = Queue.uxLength (Queue.chan h)).
    { induction l as [|o l IH]; intros h0; simpl; [reflexivity|].
      rewrite IH. destruct o as [x|]; unfold Queue.step.
      - unfold Queue.xQueueSendFromISR.
        destruct (Queue.is_full (Queue.chan h0)); reflexivity.
      - unfold Queue.xQueueReceive.
        destruct (Queue.items (Queue.chan h0)); reflexivity. }
    rewrite Hc in Hcap. exact Hcap.
Qed.

Lemma event_channel_fifo_drop_newest_witness :
  let e := fun n => Doorbell.mkEvent 21 (n mod 2) in
  let es := map e [1; 2; 3; 4; 5; 6; 7; 8; 9; 10; 11; 12; 13; 14; 15] in
  length es = 15%nat
  /\ Queue.items (fst (Queue.send_all
                         (Doorbell.gpio_evt_queue Doorbell.boot) es))
     = map e [1; 2; 3; 4; 5; 6; 7; 8; 9; 10].
Proof.
  split; [reflexivity|].
  apply (event_channel_fifo_drop_newest
           (map (fun n => Doorbell.mkEvent 21 (n mod 2))
                [1; 2; 3; 4; 5; 6; 7; 8; 9; 10; 11; 12; 13; 14; 15])).
  reflexivity.
Defined.

(** * The debounce filter of the doorbell *)

Section DebounceFacts.
Import Int Queue Doorbell.

(** The handler returns at the debounce check exactly when less than the
    settle window has elapsed since [last_interrupt_time]. *)
Lemma bounced_iff (arg : Z) (e : raw_edge) (s : state) :
  edge_in_time e -> is_time_us (last_interrupt_time s) ->
  (produced (snd (gpio_isr_handler arg e s)) = false
   <-> timestamp_us e - last_interrupt_time s < DEBOUNCE_TIME_US).
Proof.
  intros He Hs. unfold gpio_isr_handler.
  rewrite (sub_int64_times _ _ He Hs).
  destruct (timestamp_us e - last_interrupt_time s <? DEBOUNCE_TIME_US)
    eqn:Hlt.
  - apply Z.ltb_lt in Hlt. simpl. tauto.
  - apply Z.ltb_ge in Hlt.
    destruct (xQueueSendFromISR (gpio_evt_queue s) _) as [q ok]. simpl.
    split; [discriminate|lia].
Qed.

Lemma bounced_state (arg : Z) (e : raw_edge) (s : state) :
  edge_in_time e -> is_time_us (last_interrupt_time s) ->
  timestamp_us e - last_interrupt_time s < DEBOUNCE_TIME_US ->
  gpio_isr_handler arg e s = (s, Bounced).
Proof.
  intros He Hs Hlt. unfold gpio_isr_handler.
  rewrite (sub_int64_times _ _ He Hs).
  apply Z.ltb_lt in Hlt. now rewrite Hlt.
Qed.

(** An edge that passes the check becomes the new reference time, whatever
    the queue answers. *)
Lemma passed_state (arg : Z) (e : raw_edge) (s : state) :
  edge_in_time e -> is_time_us (last_interrupt_time s) ->
  DEBOUNCE_TIME_US <= timestamp_us e - last_interrupt_time s ->
  exists q ok,
    xQueueSendFromISR (gpio_evt_queue s)
      {| gpio_num := to_uint32 arg; level := to_uint32 (sampled_level e) |}
    = (q, ok)
    /\ gpio_isr_handler arg e s =
         ({| last_interrupt_time := timestamp_us e; gpio_evt_queue := q;
             buzzer := buzzer s |},
          Sent {| gpio_num := to_uint32 arg;
                  level := to_uint32 (sampled_level e) |} ok).
Proof.
  intros He Hs Hge. unfold gpio_isr_handler.
  rewrite (sub_int64_times _ _ He Hs).
  apply Z.ltb_ge in Hge. rewrite Hge.
  destruct (xQueueSendFromISR (gpio_evt_queue s) _) as [q ok].
  exists q, ok. split; reflexivity.
Qed.

(** Edges that all fall within the settle window of the reference time
    leave no trace. *)
Lemma all_bounced (arg : Z) (es : list raw_edge) (s : state) :
  is_time_us (last_interrupt_time s) ->
  Forall edge_in_time es ->
  Forall (fun e => timestamp_us e - last_interrupt_time s
                   < DEBOUNCE_TIME_US) es ->
  accepted_edges arg es s = [].
Proof.
  intros Hs Hin Hall. unfold accepted_edges.
  induction es as [|e es IH]; simpl; [reflexivity|].
  inversion Hin as [|? ? He Hin']; subst.
  inversion Hall as [|? ? Hlt Hall']; subst.
  rewrite (bounced_state arg e s He Hs Hlt). simpl.
  apply IH; assumption.
Qed.

Lemma last_cons (l : list Z) (x d : Z) : last (x :: l) d = last l x.
Proof.
  revert x d. induction l as [|y l IH]; intros x d; [reflexivity|].
  change (last (x :: y :: l) d) with (last (y :: l) d).
  now rewrite !IH.
Qed.

Lemma accepted_cons (arg : Z) (e : raw_edge) (es : list raw_edge)
    (s : state) :
  accepted_edges arg (e :: es) s =
    (if produced (snd (gpio_isr_handler arg e s)) then [e] else [])
    ++ accepted_edges arg es (fst (gpio_isr_handler arg e s)).
Proof.
  unfold accepted_edges. simpl.
  destruct (gpio_isr_handler arg e s) as [s1 o]. simpl.
  destruct (produced o); reflexivity.
Qed.

(** Whatever the edges, the reference time is the timestamp of the last
    edge that passed the check, or what it was when none did: an edge that
    is dropped does not move it. *)
Lemma reference_time_is_last_accepted (arg : Z) (es : list raw_edge) :
  forall s : state,
    Forall edge_in_time es ->
    is_time_us (last_interrupt_time s) ->
    last_interrupt_time (isr_run arg es s)
    = last (map timestamp_us (accepted_edges arg es s))
           (last_interrupt_time s).
Proof.
  induction es as [|e es IH]; intros s Hin Hs.
  - reflexivity.
  - inversion Hin as [|? ? He Hin']; subst.
    rewrite accepted_cons. simpl isr_run.
    destruct (Z_lt_ge_dec (timestamp_us e - last_interrupt_time s)
                          DEBOUNCE_TIME_US) as [Hlt|Hge].
    + rewrite (bounced_state arg e s He Hs Hlt). simpl.
      apply IH; assumption.
    + apply Z.ge_le in Hge.
      destruct (passed_state arg e s He Hs Hge) as (q & ok & _ & Hrun).
      rewrite Hrun. simpl fst. simpl snd. simpl produced. cbv iota.
      simpl app. simpl map. rewrite last_cons.
      apply (IH {| last_interrupt_time := timestamp_us e;
                   gpio_evt_queue := q; buzzer := buzzer s |});
        [exact Hin'|exact He].
Qed.

(** The handler of runs/2026-02-12_19-38-55 takes the same decisions: from
    the same reference time it accepts the same edges and ends with the
    same reference time. *)
Lemma level_handler_accepts_same (arg : Z) (es : list raw_edge) :
  forall (s : state) (s1 : DoorbellLevel.state),
    DoorbellLevel.last_interrupt_time s1 = last_interrupt_time s ->
    snd (DoorbellLevel.exec (map Edge es) s1) = accepted_edges arg es s
    /\ DoorbellLevel.last_interrupt_time
         (fst (DoorbellLevel.exec (map Edge es) s1))
       = last_interrupt_time (isr_run arg es s).
Proof.
  induction es as [|e es IH]; intros s s1 Hlast.
  - split; [reflexivity|exact Hlast].
  - rewrite accepted_cons. simpl isr_run. simpl map.
    simpl DoorbellLevel.exec.
    unfold gpio_isr_handler, DoorbellLevel.gpio_isr_handler.
    rewrite Hlast.
    change DoorbellLevel.DEBOUNCE_TIME_US with DEBOUNCE_TIME_US.
    destruct (sub_int64 (timestamp_us e) (last_interrupt_time s)
              <? DEBOUNCE_TIME_US).
    + destruct (IH s s1 Hlast) as [Ha Hl].
      destruct (DoorbellLevel.exec (map Edge es) s1) as [s2 acc].
      simpl in *. split; assumption.
    + destruct (xQueueSendFromISR (gpio_evt_queue s) _) as [q ok].
      destruct (xQueueSendFromISR (DoorbellLevel.gpio_evt_queue s1) _)
        as [q1 ok1].
      destruct (IH {| last_interrupt_time := timestamp_us e;
                      gpio_evt_queue := q; buzzer := buzzer s |}
                   {| DoorbellLevel.last_interrupt_time := timestamp_us e;
                      DoorbellLevel.gpio_evt_queue := q1;
                      DoorbellLevel.buzzer := DoorbellLevel.buzzer s1 |}
                   eq_refl) as [Ha Hl].
      destruct (DoorbellLevel.exec (map Edge es) _) as [s2 acc].
      simpl in *. split; [now rewrite Ha|exact Hl].
Qed.

End DebounceFacts.

Section DebounceClaims.
Import Int Queue Doorbell.

(** C1, as stated, fails: [last_interrupt_time] starts at 0, so the edge at
    t = 0 is 0 us after the reference time and returns at the debounce
    check.  Of the edges at 0, 10,000 and 60,000 us only the last one
    produces an event. *)
Lemma first_edge_at_zero_is_dropped :
  map timestamp_us
      (accepted_edges BUTTON_GPIO
         [mkEdge 0 0; mkEdge 10000 0; mkEdge 60000 0] boot)
  <> [0; 60000].
Proof. vm_compute. discriminate. Qed.

(** Three edges at b, b + 10,000 and b + 60,000 us, the first one at least
    one settle window after boot: the first and the third produce an
    event. *)
Lemma scenario_after_boot_window (arg b l0 l1 l2 : Z) :
  DEBOUNCE_TIME_US <= b < 2 ^ 63 - 60000 ->
  accepted_edges arg
    [mkEdge b l0; mkEdge (b + 10000) l1; mkEdge (b + 60000) l2] boot
  = [mkEdge b l0; mkEdge (b + 60000) l2].
Proof.
  intros Hb. unfold DEBOUNCE_TIME_US in Hb.
  assert (H0 : is_time_us (last_interrupt_time boot))
    by (unfold is_time_us; simpl; lia).
  assert (He0 : edge_in_time (mkEdge b l0))
    by (unfold edge_in_time, is_time_us; simpl; lia).
  assert (He1 : edge_in_time (mkEdge (b + 10000) l1))
    by (unfold edge_in_time, is_time_us; simpl; lia).
  assert (He2 : edge_in_time (mkEdge (b + 60000) l2))
    by (unfold edge_in_time, is_time_us; simpl; lia).
  rewrite accepted_cons.
  destruct (passed_state arg _ boot He0 H0) as (q0 & ok0 & _ & Hrun0);
    [simpl; unfold DEBOUNCE_TIME_US; lia|].
  rewrite Hrun0. simpl fst. simpl snd. simpl produced. cbv iota.
  set (s0 := {| last_interrupt_time := _ |}).
  assert (Hs0 : is_time_us (last_interrupt_time s0)) by exact He0.
  rewrite accepted_cons.
  rewrite (bounced_state arg _ s0 He1 Hs0)
    by (simpl; unfold DEBOUNCE_TIME_US; lia).
  simpl fst. simpl snd. simpl produced. cbv iota.
  rewrite accepted_cons.
  destruct (passed_state arg _ s0 He2 Hs0) as (q2 & ok2 & _ & Hrun2);
    [simpl; unfold DEBOUNCE_TIME_US; lia|].
  rewrite Hrun2. reflexivity.
Qed.

(** C1, amended.  The reference time of the filter starts at 0, not at
    minus infinity: the first edge after boot produces an event exactly when
    its timestamp is at least the settle window of 50,000 us.  Of edges at
    0, 10,000 and 60,000 us only the one at 60,000 us produces an event; of
    edges at b, b + 10,000 and b + 60,000 us with b at least the settle
    window, exactly the first and the third do. *)
Theorem first_edge_accepted_from_settle_window
    (arg : Z) (e : raw_edge) (b l0 l1 l2 : Z)
    (He : edge_in_time e)
    (Hb : DEBOUNCE_TIME_US <= b < 2 ^ 63 - 60000) :
  DEBOUNCE_TIME_US = 50000
  /\ last_interrupt_time boot = 0
  /\ (produced (snd (gpio_isr_handler arg e boot)) = true
      <-> DEBOUNCE_TIME_US <= timestamp_us e)
  /\ accepted_edges arg
       [mkEdge 0 l0; mkEdge 10000 l1; mkEdge 60000 l2] boot
     = [mkEdge 60000 l2]
  /\ accepted_edges arg
       [mkEdge b l0; mkEdge (b + 10000) l1; mkEdge (b + 60000) l2] boot
     = [mkEdge b l0; mkEdge (b + 60000) l2].
Proof.
  repeat split; try reflexivity; try (apply scenario_after_boot_window, Hb).
  - intros Hp. destruct (Z_lt_ge_dec (timestamp_us e) DEBOUNCE_TIME_US)
      as [Hlt|Hge]; [|lia].
    assert (Hdrop : produced (snd (gpio_isr_handler arg e boot)) = false).
    { apply bounced_iff; [exact He|unfold is_time_us; simpl; lia|].
      simpl. lia. }
    congruence.
  - intros Hge. destruct (produced (snd (gpio_isr_handler arg e boot))) eqn:Hp;
      [reflexivity|].
    apply bounced_iff in Hp; [|exact He|unfold is_time_us; simpl; lia].
    simpl in Hp. lia.
Qed.

Lemma first_edge_accepted_from_settle_window_witness :
  edge_in_time (mkEdge 50000 1)
  /\ accepted_edges BUTTON_GPIO
       [mkEdge 1000000 0; mkEdge 1010000 1; mkEdge 1060000 0] boot
     = [mkEdge 1000000 0; mkEdge 1060000 0].
Proof.
  assert (He : edge_in_time (mkEdge 50000 1)).
  { unfold edge_in_time, is_time_us. simpl. lia. }
  assert (Hb : DEBOUNCE_TIME_US <= 1000000 < 2 ^ 63 - 60000).
  { unfold DEBOUNCE_TIME_US. lia. }
  split; [exact He|].
  exact (proj2 (proj2 (proj2 (proj2
           (first_edge_accepted_from_settle_window
              BUTTON_GPIO (mkEdge 50000 1) 1000000 0 1 0 He Hb))))).
Defined.

(** C2, as stated, fails: two edges exactly one settle window apart, the
    first at t = 0, produce one event, not two. *)
Lemma spaced_edges_from_zero_lose_the_first :
  accepted_edges BUTTON_GPIO [mkEdge 0 0; mkEdge 50000 1] boot
  <> [mkEdge 0 0; mkEdge 50000 1].
Proof. vm_compute. discriminate. Qed.

(** C2, amended.  In the handlers that return on
    [elapsed < DEBOUNCE_TIME_US], the one of src/unnamed/part_000 and the
    one of runs/2026-02-12_19-38-55: when the first edge comes at least one
    settle window after the reference time (0 at boot) and consecutive edges
    are at least one settle window apart, equality included, every edge
    produces exactly one event and the events come in arrival order.  For
    any edges at all, an edge is dropped exactly when the time elapsed since
    the reference time is strictly less than the settle window; a dropped
    edge leaves every global as it was, an edge that passes becomes the
    reference time, so the reference time is always the timestamp of the
    last edge that produced an event, and the value at boot before any
    did. *)
Theorem spaced_edges_all_accepted
    (arg : Z) (es : list raw_edge) (s : state)
    (Hs : is_time_us (last_interrupt_time s))
    (Hin : Forall edge_in_time es)
    (Hsp : spaced (last_interrupt_time s) (map timestamp_us es)) :
  accepted_edges arg es s = es
  /\ last_interrupt_time (isr_run arg es s)
     = last (map timestamp_us es) (last_interrupt_time s)
  /\ (forall (e : raw_edge) (s0 : state),
        edge_in_time e -> is_time_us (last_interrupt_time s0) ->
        (produced (snd (gpio_isr_handler arg e s0)) = false
         <-> timestamp_us e - last_interrupt_time s0 < DEBOUNCE_TIME_US))
  /\ (forall (e : raw_edge) (s0 : state),
        edge_in_time e -> is_time_us (last_interrupt_time s0) ->
        timestamp_us e - last_interrupt_time s0 < DEBOUNCE_TIME_US ->
        gpio_isr_handler arg e s0 = (s0, Bounced))
  /\ (forall (e : raw_edge) (s0 : state),
        edge_in_time e -> is_time_us (last_interrupt_time s0) ->
        DEBOUNCE_TIME_US <= timestamp_us e - last_interrupt_time s0 ->
        last_interrupt_time (fst (gpio_isr_handler arg e s0))
        = timestamp_us e)
  /\ (forall (es0 : list raw_edge) (s0 : state),
        Forall edge_in_time es0 -> is_time_us (last_interrupt_time s0) ->
        last_interrupt_time (isr_run arg es0 s0)
        = last (map timestamp_us (accepted_edges arg es0 s0))
               (last_interrupt_time s0))
  /\ (forall (es0 : list raw_edge) (s0 : state) (s1 : DoorbellLevel.state),
        DoorbellLevel.last_interrupt_time s1 = last_interrupt_time s0 ->
        snd (DoorbellLevel.exec (map Edge es0) s1)
        = accepted_edges arg es0 s0
        /\ DoorbellLevel.last_interrupt_time
             (fst (DoorbellLevel.exec (map Edge es0) s1))
           = last_interrupt_time (isr_run arg es0 s0))
  /\ (forall s1 : DoorbellLevel.state,
        DoorbellLevel.last_interrupt_time s1 = last_interrupt_time s ->
        snd (DoorbellLevel.exec (map Edge es) s1) = es).
Proof.
  assert (Hall : accepted_edges arg es s = es).
  { revert s Hs Hsp. induction Hin as [|e es He Hin IH]; intros s Hs Hsp.
    - reflexivity.
    - simpl in Hsp. destruct Hsp as [Hge Hsp].
      rewrite accepted_cons.
      destruct (passed_state arg e s He Hs Hge) as (q & ok & _ & Hrun).
      rewrite Hrun. simpl. f_equal.
      apply IH; simpl; assumption. }
  split; [exact Hall|].
  split.
  { rewrite (reference_time_is_last_accepted arg es s Hin Hs), Hall.
    reflexivity. }
  split; [intros e s0; apply bounced_iff|].
  split; [intros e s0; apply bounced_state|].
  split.
  { intros e s0 He0 Hs0 Hge.
    destruct (passed_state arg e s0 He0 Hs0 Hge) as (q & ok & _ & Hrun).
    rewrite Hrun. reflexivity. }
  split; [intros es0 s0; apply reference_time_is_last_accepted|].
  split; [intros es0 s0 s1; apply level_handler_accepts_same|].
  intros s1 Hlast.
  rewrite (proj1 (level_handler_accepts_same arg es s s1 Hlast)).
  exact Hall.
Qed.

Lemma spaced_edges_all_accepted_witness :
  accepted_edges BUTTON_GPIO
    [mkEdge 50000 0; mkEdge 100000 1; mkEdge 170000 0] boot
  = [mkEdge 50000 0; mkEdge 100000 1; mkEdge 170000 0].
Proof.
  apply (spaced_edges_all_accepted BUTTON_GPIO
           [mkEdge 50000 0; mkEdge 100000 1; mkEdge 170000 0] boot).
  - unfold is_time_us. simpl. lia.
  - repeat constructor; unfold edge_in_time, is_time_us; simpl; lia.
  - simpl. unfold DEBOUNCE_TIME_US. lia.
Defined.

(** C6.  When every edge of a sequence comes less than one settle window
    after each of the edges before it, the filter produces at most one
    event, however long the sequence. *)
Theorem burst_yields_at_most_one_event
    (arg : Z) (es : list raw_edge) (s : state)
    (Hs : is_time_us (last_interrupt_time s))
    (Hin : Forall edge_in_time es)
    (Hburst : ForallOrdPairs
                (fun a b => timestamp_us b - timestamp_us a
                            < DEBOUNCE_TIME_US) es) :
  (length (accepted_edges arg es s) <= 1)%nat.
Proof.
  revert s Hs. induction Hburst as [|e es Hnear Hburst IH]; intros s Hs.
  - simpl. lia.
  - inversion Hin as [|? ? He Hin']; subst.
    rewrite accepted_cons.
    destruct (Z_lt_ge_dec (timestamp_us e - last_interrupt_time s)
                          DEBOUNCE_TIME_US) as [Hlt|Hge].
    + rewrite (bounced_state arg e s He Hs Hlt). simpl.
      apply IH; assumption.
    + apply Z.ge_le in Hge.
      destruct (passed_state arg e s He Hs Hge) as (q & ok & _ & Hrun).
      rewrite Hrun. simpl.
      rewrite all_bounced; simpl; [lia|exact He|exact Hin'|exact Hnear].
Qed.

Lemma burst_yields_at_most_one_event_witness :
  (length (accepted_edges BUTTON_GPIO
             [mkEdge 60000 0; mkEdge 60400 1; mkEdge 75000 0;
              mkEdge 109999 1] boot) <= 1)%nat.
Proof.
  apply burst_yields_at_most_one_event.
  - unfold is_time_us. simpl. lia.
  - repeat constructor; unfold edge_in_time, is_time_us; simpl; lia.
  - repeat constructor; simpl; unfold DEBOUNCE_TIME_US; lia.
Defined.

(** C9.  When an edge passes the debounce check and the queue is full, the
    push fails and the event is lost, but the reference time has become the
    timestamp of that edge: the globals differ from before in
    [last_interrupt_time] only (the status of the push is kept nowhere and
    nothing counts the loss), and every later edge less than one settle
    window after the lost one returns at the debounce check. *)
Theorem dropped_event_still_opens_settle_window
    (arg : Z) (e : raw_edge) (s : state)
    (Hs : is_time_us (last_interrupt_time s))
    (He : edge_in_time e)
    (Hfull : is_full (gpio_evt_queue s) = true)
    (Hpass : DEBOUNCE_TIME_US <= timestamp_us e - last_interrupt_time s) :
  let s1 := fst (gpio_isr_handler arg e s) in
  snd (gpio_isr_handler arg e s)
  = Sent {| gpio_num := to_uint32 arg;
            level := to_uint32 (sampled_level e) |} false
  /\ s1 = {| last_interrupt_time := timestamp_us e;
             gpio_evt_queue := gpio_evt_queue s; buzzer := buzzer s |}
  /\ forall e' : raw_edge,
       edge_in_time e' ->
       timestamp_us e' - timestamp_us e < DEBOUNCE_TIME_US ->
       gpio_isr_handler arg e' s1 = (s1, Bounced).
Proof.
  destruct (passed_state arg e s He Hs Hpass) as (q & ok & Hsend & Hrun).
  rewrite (send_full _ _ Hfull) in Hsend. inversion Hsend; subst q ok.
  rewrite Hrun. simpl. repeat split.
  intros e' He' Hnear. apply bounced_state; simpl; assumption.
Qed.

Lemma dropped_event_still_opens_settle_window_witness :
  let full :=
    {| last_interrupt_time := 100000;
       gpio_evt_queue := mkQueue 10 (repeat (mkEvent 21 0) 10);
       buzzer := 0 |} in
  fst (gpio_isr_handler BUTTON_GPIO (mkEdge 200000 1) full)
  = {| last_interrupt_time := 200000;
       gpio_evt_queue := mkQueue 10 (repeat (mkEvent 21 0) 10);
       buzzer := 0 |}.
Proof.
  apply (dropped_event_still_opens_settle_window BUTTON_GPIO
           (mkEdge 200000 1)
           {| last_interrupt_time := 100000;
              gpio_evt_queue := mkQueue 10 (repeat (mkEvent 21 0) 10);
              buzzer := 0 |}).
  - unfold is_time_us. simpl. lia.
  - unfold edge_in_time, is_time_us. simpl. lia.
  - reflexivity.
  - simpl. unfold DEBOUNCE_TIME_US. lia.
Defined.

End DebounceClaims.


(** * The level the task acts on *)

Section LevelFacts.
Import Int Queue.

(** In src/unnamed/part_000 the event carries the level read in the handler
    and the task drives the buzzer from that level alone. *)
Lemma task_acts_on_sampled_level
    (arg : Z) (e : Doorbell.raw_edge) (s : Doorbell.state) :
  Doorbell.edge_in_time e ->
  is_time_us (Doorbell.last_interrupt_time s) ->
  Doorbell.DEBOUNCE_TIME_US
    <= Doorbell.timestamp_us e - Doorbell.last_interrupt_time s ->
  items (Doorbell.gpio_evt_queue s) = [] ->
  (0 < uxLength (Doorbell.gpio_evt_queue s))%nat ->
  option_map Doorbell.buzzer
    (Doorbell.gpio_task (fst (Doorbell.gpio_isr_handler arg e s)))
  = Some (if to_uint32 (Doorbell.sampled_level e) =? 0 then 1 else 0).
Proof.
  intros He Hs Hpass Hempty Hcap.
  destruct (passed_state arg e s He Hs Hpass) as (q & ok & Hsend & Hrun).
  rewrite Hrun. simpl fst.
  rewrite send_room in Hsend.
  - inversion Hsend; subst q ok. unfold Doorbell.gpio_task, xQueueReceive.
    simpl. rewrite Hempty. reflexivity.
  - unfold is_full. rewrite Hempty. simpl. apply Nat.leb_gt. exact Hcap.
Qed.

(** C8, on the first program of runs/2026-02-12_18-59-37.  The handler
    accepts the edge at 60,000 us and queues the pin number only; the task
    reads the button again when it takes the item, so for this one accepted
    edge the buzzer follows the level at that later time: on for 0, off for
    anything else. *)
Theorem reread_task_acts_on_late_level (pin_now : Z) :
  let s1 := fst (DoorbellReread.gpio_isr_handler
                   DoorbellReread.BUTTON_GPIO 60000 DoorbellReread.boot) in
  snd (DoorbellReread.gpio_isr_handler
         DoorbellReread.BUTTON_GPIO 60000 DoorbellReread.boot) = true
  /\ items (DoorbellReread.gpio_evt_queue s1) = [21]
  /\ option_map DoorbellReread.buzzer (DoorbellReread.gpio_task pin_now s1)
     = Some (if pin_now =? 0 then 1 else 0)
  /\ option_map DoorbellReread.buzzer (DoorbellReread.gpio_task 0 s1)
     <> option_map DoorbellReread.buzzer (DoorbellReread.gpio_task 1 s1).
Proof.
  repeat split; try reflexivity.
  vm_compute. discriminate.
Qed.

(** The same program accepts an edge only when more than one settle window
    has elapsed: an edge exactly one window after the reference time is
    dropped. *)
Lemma reread_handler_drops_edge_at_window :
  DoorbellReread.gpio_isr_handler DoorbellReread.BUTTON_GPIO 50000
    DoorbellReread.boot
  = (DoorbellReread.boot, false).
Proof. reflexivity. Qed.

End LevelFacts.


(** * The mode counter *)

Section CounterFacts.
Import Int Hal.
Variable portTICK_PERIOD_MS : Z.
Variable pdMS_TO_TICKS : Z -> Z.

Let isr := Blinker.button_isr_handler portTICK_PERIOD_MS.
Let now (t : Z) := to_uint32 (t * portTICK_PERIOD_MS).

Lemma isr_rejected (t : Z) (w : Blinker.world) :
  sub_uint32 (now t) (Blinker.last_interrupt_time w)
    <= Blinker.debounce_time_ms ->
  isr t w = w.
Proof.
  intros Hle. unfold isr, Blinker.button_isr_handler. fold (now t).
  destruct (sub_uint32 (now t) (Blinker.last_interrupt_time w)
            >? Blinker.debounce_time_ms) eqn:Hgt; [|reflexivity].
  apply Z.gtb_lt in Hgt. lia.
Qed.

Lemma isr_accepted (t : Z) (w : Blinker.world) :
  sub_uint32 (now t) (Blinker.last_interrupt_time w)
    > Blinker.debounce_time_ms ->
  0 <= Blinker.button_press_count w ->
  let found :=
    if Blinker.main_task_handle w then true else Blinker.task_created w in
  isr t w =
    {| Blinker.led_timer := Blinker.led_timer w;
       Blinker.button_press_count := (Blinker.button_press_count w + 1) mod 4;
       Blinker.last_interrupt_time := now t;
       Blinker.main_task_handle := found;
       Blinker.task_created := Blinker.task_created w;
       Blinker.notifications :=
         if found then S (Blinker.notifications w)
         else Blinker.notifications w;
       Blinker.next_timer := Blinker.next_timer w |}.
Proof.
  intros Hgt Hc. unfold isr, Blinker.button_isr_handler. fold (now t).
  assert (Hb : (sub_uint32 (now t) (Blinker.last_interrupt_time w)
                >? Blinker.debounce_time_ms) = true)
    by (apply Z.gtb_lt; lia).
  rewrite Hb.
  now rewrite (advance_mod _ Hc).
Qed.

Lemma isr_run_count (ts : list Z) (w : Blinker.world) :
  0 <= Blinker.button_press_count w < 4 ->
  Blinker.debounced portTICK_PERIOD_MS (Blinker.last_interrupt_time w) ts ->
  Blinker.button_press_count (Blinker.isr_run portTICK_PERIOD_MS ts w)
  = (Blinker.button_press_count w + Z.of_nat (length ts)) mod 4.
Proof.
  revert w. induction ts as [|t ts IH]; intros w Hc Hd.
  - simpl. rewrite Z.add_0_r, Z.mod_small; lia.
  - simpl in Hd. destruct Hd as [Hgt Hd]. fold (now t) in Hgt, Hd.
    unfold Blinker.isr_run. simpl fold_left.
    fold (isr t w). fold (Blinker.isr_run portTICK_PERIOD_MS ts (isr t w)).
    assert (Hw := isr_accepted t w Hgt (proj1 Hc)). simpl in Hw.
    assert (Hb : 0 <= (Blinker.button_press_count w + 1) mod 4 < 4)
      by (apply Z.mod_pos_bound; lia).
    rewrite IH; rewrite Hw; simpl; [|exact Hb|exact Hd].
    rewrite Zplus_mod_idemp_l. f_equal. lia.
Qed.

(** One served press in src/unnamed/part_001 moves [button_state] one step
    round the cycle. *)
Lemma sw_turn_advances (active : bool) (polls : nat) (w : SwBlinker.world)
    (t : handle) :
  SwBlinker.led_timer w = Some t ->
  0 <= SwBlinker.button_state w < 4 ->
  exists w1 calls,
    SwBlinker.button_task pdMS_TO_TICKS 1 active polls w = Some (w1, calls)
    /\ SwBlinker.button_state w1 = (SwBlinker.button_state w + 1) mod 4
    /\ SwBlinker.led_timer w1 = Some t.
Proof.
  intros Ht Hc. unfold SwBlinker.button_task. simpl (1 =? 1).
  cbv iota. unfold SwBlinker.apply_state. rewrite Ht.
  destruct (SwBlinker.period_ms (SwBlinker.button_state w)) as [ms|].
  - eexists _, _. split; [reflexivity|]. simpl.
    split; [apply advance_mod; lia|exact Ht].
  - destruct (SwBlinker.button_state w =? 3);
      (eexists _, _; split; [reflexivity|]; simpl;
       split; [apply advance_mod; lia|assumption || reflexivity]).
Qed.

Lemma sw_turns_count (envs : list (bool * nat)) (w : SwBlinker.world)
    (t : handle) :
  SwBlinker.led_timer w = Some t ->
  0 <= SwBlinker.button_state w < 4 ->
  exists w1,
    SwBlinker.turns pdMS_TO_TICKS envs w = Some w1
    /\ SwBlinker.button_state w1
       = (SwBlinker.button_state w + Z.of_nat (length envs)) mod 4.
Proof.
  revert w. induction envs as [|[active polls] envs IH]; intros w Ht Hc.
  - exists w. split; [reflexivity|].
    simpl. rewrite Z.add_0_r, Z.mod_small; lia.
  - destruct (sw_turn_advances active polls w t Ht Hc)
      as (w1 & calls & Hrun & Hst & Ht1).
    assert (Hb : 0 <= SwBlinker.button_state w1 < 4)
      by (rewrite Hst; apply Z.mod_pos_bound; lia).
    destruct (IH w1 Ht1 Hb) as (w2 & Hrun2 & Hst2).
    exists w2. split.
    + simpl. rewrite Hrun. exact Hrun2.
    + rewrite Hst2, Hst, Zplus_mod_idemp_l. f_equal.
      change (length ((active, polls) :: envs)) with (S (length envs)). lia.
Qed.

End CounterFacts.

(** C3.  Each accepted press adds one to the mode counter modulo 4 and the
    counter stays in [0, 4); a press that fails the debounce check changes
    nothing; after four accepted presses the counter is back at the value it
    started from.  This holds for [button_press_count], advanced in the
    handler of the general purpose timer program, and for [button_state],
    advanced in the task of src/unnamed/part_001. *)
Theorem mode_counter_cycles_with_period_four
    (tick : Z) (to_ticks : Z -> Z)
    (ts : list Z) (w : Blinker.world)
    (envs : list (bool * nat)) (sw : SwBlinker.world) (t : Hal.handle)
    (Hc : 0 <= Blinker.button_press_count w < 4)
    (Hd : Blinker.debounced tick (Blinker.last_interrupt_time w) ts)
    (Ht : SwBlinker.led_timer sw = Some t)
    (Hs : 0 <= SwBlinker.button_state sw < 4) :
  let w1 := Blinker.isr_run tick ts w in
  Blinker.button_press_count w1
  = (Blinker.button_press_count w + Z.of_nat (length ts)) mod 4
  /\ 0 <= Blinker.button_press_count w1 < 4
  /\ (length ts = 4%nat ->
      Blinker.button_press_count w1 = Blinker.button_press_count w)
  /\ (forall (t0 : Z) (w0 : Blinker.world),
        Int.sub_uint32 (Int.to_uint32 (t0 * tick))
          (Blinker.last_interrupt_time w0) <= Blinker.debounce_time_ms ->
        Blinker.button_isr_handler tick t0 w0 = w0)
  /\ exists sw1,
       SwBlinker.turns to_ticks envs sw = Some sw1
       /\ SwBlinker.button_state sw1
          = (SwBlinker.button_state sw + Z.of_nat (length envs)) mod 4
       /\ 0 <= SwBlinker.button_state sw1 < 4
       /\ (length envs = 4%nat ->
           SwBlinker.button_state sw1 = SwBlinker.button_state sw).
Proof.
  intros w1. subst w1.
  assert (Hcount := isr_run_count tick ts w Hc Hd).
  split; [exact Hcount|]. rewrite Hcount.
  split; [apply Z.mod_pos_bound; lia|].
  split.
  { intros Hlen. rewrite Hlen. change (Z.of_nat 4) with (1 * 4).
    rewrite Z.mod_add, Z.mod_small; lia. }
  split; [intros t0 w0; apply isr_rejected|].
  destruct (sw_turns_count to_ticks envs sw t Ht Hs) as (sw1 & Hrun & Hst).
  exists sw1. split; [exact Hrun|]. split; [exact Hst|]. rewrite Hst.
  split; [apply Z.mod_pos_bound; lia|].
  intros Hlen. rewrite Hlen. change (Z.of_nat 4) with (1 * 4).
  rewrite Z.mod_add, Z.mod_small; lia.
Qed.

Lemma mode_counter_cycles_with_period_four_witness :
  Blinker.button_press_count
    (Blinker.isr_run 10 [10; 20; 30; 40] Blinker.boot)
  = (Blinker.button_press_count Blinker.boot + 4) mod 4.
Proof.
  refine (proj1 (mode_counter_cycles_with_period_four
                   10 (fun ms => ms * 100 / 1000)
                   [10; 20; 30; 40] Blinker.boot
                   [(false, 0%nat); (true, 2%nat); (true, 0%nat);
                    (true, 1%nat)]
                   (SwBlinker.boot 0%nat) 0%nat _ _ _ _)).
  - simpl. lia.
  - vm_compute. repeat split.
  - reflexivity.
  - simpl. lia.
Defined.


(** * Reconfiguring the LED timer *)

Section TimerFacts.
Import Int Hal.

(** The calls of [configure_led_timer]: the release of the timer in use, if
    any, then the creation of a new one for modes 0 to 2. *)
Lemma configure_calls (mode : Z) (w : Blinker.world) :
  snd (Blinker.configure_led_timer mode w)
  = match Blinker.led_timer w with
    | Some t =>
        [gptimer_stop t; gptimer_disable t; gptimer_del_timer t;
         gpio_set_level Blinker.LED_GPIO 0]
    | None => []
    end
    ++ (if mode <? 3
        then
          let n := Blinker.next_timer w in
          [gptimer_new_timer 1000000 n;
           gptimer_register_event_callbacks n;
           gptimer_set_alarm_action n 0
             (nth (Z.to_nat mode) Blinker.timer_periods 0) true;
           gptimer_enable n;
           gptimer_start n]
        else []).
Proof.
  unfold Blinker.configure_led_timer.
  destruct (Blinker.led_timer w) as [t|]; destruct (mode <? 3); simpl;
    reflexivity.
Qed.

Lemma configure_world (mode : Z) (w : Blinker.world) :
  fst (Blinker.configure_led_timer mode w)
  = {| Blinker.led_timer :=
         if mode <? 3 then Some (Blinker.next_timer w) else None;
       Blinker.button_press_count := Blinker.button_press_count w;
       Blinker.last_interrupt_time := Blinker.last_interrupt_time w;
       Blinker.main_task_handle := Blinker.main_task_handle w;
       Blinker.task_created := Blinker.task_created w;
       Blinker.notifications := Blinker.notifications w;
       Blinker.next_timer :=
         if mode <? 3 then S (Blinker.next_timer w)
         else Blinker.next_timer w |}.
Proof.
  unfold Blinker.configure_led_timer.
  destruct w as [lt c l h tc n nt].
  destruct lt as [t|]; destruct (mode <? 3); reflexivity.
Qed.

(** The timer in use is always older than the one the driver creates
    next. *)
Lemma configure_keeps_timer_fresh (mode : Z) (w : Blinker.world) :
  (forall t, Blinker.led_timer w = Some t -> (t < Blinker.next_timer w)%nat) ->
  forall t,
    Blinker.led_timer (fst (Blinker.configure_led_timer mode w)) = Some t ->
    (t < Blinker.next_timer (fst (Blinker.configure_led_timer mode w)))%nat.
Proof.
  intros _ t. rewrite configure_world. simpl.
  destruct (mode <? 3); [|discriminate].
  intros Ht. inversion Ht. lia.
Qed.

(** After the calls of a reconfiguration the generator runs with the period
    of the table for modes 0 to 2 and is off otherwise; [log] holds the
    earlier calls. *)
Lemma configure_waveform (mode : Z) (w : Blinker.world)
    (log pulse : list call) :
  (Blinker.led_timer w = None -> waveform_after log = Disabled) ->
  Forall (fun c => target c = None) pulse ->
  waveform_after (log ++ pulse ++ snd (Blinker.configure_led_timer mode w))
  = if mode <? 3
    then Enabled (nth (Z.to_nat mode) Blinker.timer_periods 0)
    else Disabled.
Proof.
  intros Hoff Hpulse. rewrite configure_calls.
  unfold waveform_after, generator_after in *.
  rewrite !fold_left_app.
  set (g0 := fold_left generator_step log {| alarm := 0; output := Disabled |})
    in *.
  assert (Hp : forall g, fold_left generator_step pulse g = g).
  { induction Hpulse as [|c cs Hc _ IH]; intros g; [reflexivity|].
    simpl. rewrite <- (IH g) at 2. f_equal.
    destruct c; simpl in Hc; try discriminate Hc; reflexivity. }
  rewrite Hp.
  destruct (Blinker.led_timer w) as [t|]; destruct (mode <? 3); simpl;
    try reflexivity.
  apply Hoff. reflexivity.
Qed.

End TimerFacts.

Section TimerClaims.
Import Int Hal.

Lemma timer_calls_delays (k : Z) (n : nat) :
  SwBlinker.timer_calls (repeat (vTaskDelay k) n) = [].
Proof. induction n as [|n IH]; [reflexivity|exact IH]. Qed.

(** C5, as stated, fails on src/unnamed/part_001: with the kernel timer
    running and [button_state] at 1, a served press stops the timer, writes
    the new period into that same timer and starts it again; the timer is
    never deleted. *)
Lemma kernel_timer_is_reused_not_released :
  let w := {| SwBlinker.led_timer := Some 0%nat;
              SwBlinker.button_state := 1;
              SwBlinker.led_state := true |} in
  exists w1 calls,
    SwBlinker.button_task (fun ms => ms / 10) 1 true 0 w = Some (w1, calls)
    /\ SwBlinker.timer_calls calls
       = [xTimerStop 0%nat; xTimerChangePeriod 0%nat 25; xTimerStart 0%nat]
    /\ released_before_apply 0%nat calls = false.
Proof. eexists _, _. repeat split. Qed.

(** C5, amended.  In [configure_led_timer], when a timer is in use at entry
    it is stopped, disabled and deleted, in this order, before any period is
    applied and before any timer is enabled or started; whatever is applied
    afterwards goes to the timer created in between, never to the one that
    ran.  In [button_task] of src/unnamed/part_001, for the three blinking
    states, the running timer is stopped and not released: the new period is
    written into that same timer once it is stopped, and the timer is
    started again. *)
Theorem reconfigure_stops_timer_before_new_period
    (mode : Z) (w : Blinker.world) (t : handle)
    (to_ticks : Z -> Z) (polls : nat) (sw : SwBlinker.world) (st : handle)
    (Ht : Blinker.led_timer w = Some t)
    (Hfresh : (t < Blinker.next_timer w)%nat)
    (Hst : SwBlinker.led_timer sw = Some st)
    (Hblink : 0 <= SwBlinker.button_state sw < 3) :
  let calls := snd (Blinker.configure_led_timer mode w) in
  let w1 := fst (Blinker.configure_led_timer mode w) in
  firstn 3 calls = [gptimer_stop t; gptimer_disable t; gptimer_del_timer t]
  /\ released_before_apply t calls = true
  /\ (forall c, In c calls -> applies c = true ->
        target c = Some (Blinker.next_timer w) /\ target c <> Some t)
  /\ no_write_while_running (fun h => Nat.eqb h t) [] calls = true
  /\ Blinker.led_timer w1
     = (if mode <? 3 then Some (Blinker.next_timer w) else None)
  /\ exists sw1 calls1 ms,
       SwBlinker.button_task to_ticks 1 true polls sw = Some (sw1, calls1)
       /\ SwBlinker.period_ms (SwBlinker.button_state sw) = Some ms
       /\ SwBlinker.timer_calls calls1
          = [xTimerStop st; xTimerChangePeriod st (to_ticks ms);
             xTimerStart st]
       /\ released_before_apply st calls1 = false
       /\ no_write_while_running (fun h => Nat.eqb h st) []
            (SwBlinker.timer_calls calls1) = true
       /\ SwBlinker.led_timer sw1 = Some st.
Proof.
  intros calls w1. subst calls w1.
  rewrite configure_calls, configure_world, Ht.
  assert (Hne : Nat.eqb (Blinker.next_timer w) t = false)
    by (apply Nat.eqb_neq; lia).
  assert (Hne' : Some (Blinker.next_timer w) <> Some t)
    by (intros H; inversion H; lia).
  split; [reflexivity|].
  split.
  { unfold released_before_apply.
    destruct (mode <? 3); simpl; rewrite !Nat.eqb_refl; reflexivity. }
  split.
  { intros c Hin Happ. destruct (mode <? 3); simpl in Hin;
      repeat match goal with
             | H : _ \/ _ |- _ => destruct H as [H|H]
             end;
      try contradiction; subst c; simpl in Happ; try discriminate Happ;
      (split; [reflexivity|exact Hne']). }
  split.
  { destruct (mode <? 3); simpl; [|reflexivity].
    rewrite !Hne. reflexivity. }
  split; [reflexivity|].
  unfold SwBlinker.button_task, SwBlinker.apply_state.
  simpl (1 =? 1). cbv iota. rewrite Hst.
  assert (Hcases : SwBlinker.button_state sw = 0
                   \/ SwBlinker.button_state sw = 1
                   \/ SwBlinker.button_state sw = 2) by lia.
  destruct Hcases as [Hs|[Hs|Hs]]; rewrite Hs; simpl;
    (eexists _, _, _; split; [reflexivity|]; split; [reflexivity|];
     unfold SwBlinker.timer_calls; simpl;
     rewrite ?filter_app; fold (SwBlinker.timer_calls
                                  (repeat (vTaskDelay (to_ticks 10)) polls));
     rewrite timer_calls_delays; simpl;
     split; [reflexivity|];
     split; [unfold released_before_apply; simpl;
             destruct (Nat.eqb st st); reflexivity|];
     split; [rewrite !Nat.eqb_refl; reflexivity|exact Hst]).
Qed.

Lemma reconfigure_stops_timer_before_new_period_witness :
  let w := fst (Blinker.configure_led_timer 0 Blinker.boot) in
  Blinker.led_timer w = Some 0%nat
  /\ snd (Blinker.configure_led_timer 1 w)
     = [gptimer_stop 0%nat; gptimer_disable 0%nat; gptimer_del_timer 0%nat;
        gpio_set_level 9 0;
        gptimer_new_timer 1000000 1%nat;
        gptimer_register_event_callbacks 1%nat;
        gptimer_set_alarm_action 1%nat 0 250000 true;
        gptimer_enable 1%nat; gptimer_start 1%nat]
  /\ released_before_apply 0%nat
       (snd (Blinker.configure_led_timer 1 w)) = true.
Proof.
  split; [reflexivity|]. split; [reflexivity|].
  refine (proj1 (proj2 (reconfigure_stops_timer_before_new_period
                          1 (fst (Blinker.configure_led_timer 0 Blinker.boot))
                          0%nat (fun ms => ms / 10) 2%nat
                          (SwBlinker.boot 7%nat) 7%nat _ _ _ _))).
  - reflexivity.
  - simpl. lia.
  - reflexivity.
  - simpl. lia.
Defined.

End TimerClaims.


(** * Presses served by the general purpose timer program *)

Section PressFacts.
Import Int Hal.
Variable tick : Z.
Variable to_ticks : Z -> Z.

Lemma press_accepted (t : Z) (w : Blinker.world) :
  Blinker.notifications w = 0%nat ->
  Blinker.task_created w = true ->
  0 <= Blinker.button_press_count w ->
  sub_uint32 (to_uint32 (t * tick)) (Blinker.last_interrupt_time w)
    > Blinker.debounce_time_ms ->
  let mode := (Blinker.button_press_count w + 1) mod 4 in
  Blinker.press tick to_ticks t w
  = Some (fst (Blinker.configure_led_timer mode (Blinker.woken tick t w)),
          Blinker.activate_buzzer to_ticks
          ++ snd (Blinker.configure_led_timer mode (Blinker.woken tick t w))).
Proof.
  intros Hidle Htask Hc Hpass mode. unfold Blinker.press.
  rewrite (isr_accepted tick t w Hpass Hc). subst mode.
  destruct w as [lt c l h tc n nt]. simpl in Hidle, Htask. subst tc n.
  unfold Blinker.woken, Blinker.main_task, Blinker.configure_led_timer.
  cbn [Blinker.led_timer Blinker.button_press_count
       Blinker.last_interrupt_time Blinker.main_task_handle
       Blinker.task_created Blinker.notifications Blinker.next_timer].
  destruct h, lt as [t0|], ((c + 1) mod 4 <? 3); reflexivity.
Qed.

Lemma buzzer_calls_no_timer :
  Forall (fun c => target c = None) (Blinker.activate_buzzer to_ticks).
Proof. repeat constructor. Qed.

(** Presses that all pass the debounce check are all served; the counter
    has advanced by their number and the generator is left in the mode the
    counter selects. *)
Lemma presses_served (ts : list Z) :
  forall (w : Blinker.world) (log : list call),
    Blinker.notifications w = 0%nat ->
    Blinker.task_created w = true ->
    0 <= Blinker.button_press_count w < 4 ->
    (Blinker.led_timer w = None -> waveform_after log = Disabled) ->
    Blinker.debounced tick (Blinker.last_interrupt_time w) ts ->
    exists w1 log1,
      Blinker.presses tick to_ticks ts w log = Some (w1, log1)
      /\ Blinker.button_press_count w1
         = (Blinker.button_press_count w + Z.of_nat (length ts)) mod 4
      /\ (ts <> [] ->
          waveform_after log1
          = if Blinker.button_press_count w1 <? 3
            then Enabled (nth (Z.to_nat (Blinker.button_press_count w1))
                              Blinker.timer_periods 0)
            else Disabled).
Proof.
  induction ts as [|t rest IH]; intros w log Hidle Htask Hc Hoff Hd.
  - exists w, log. split; [reflexivity|]. split; [|congruence].
    simpl. rewrite Z.add_0_r, Z.mod_small; lia.
  - simpl in Hd. destruct Hd as [Hpass Hd].
    assert (Hrun := press_accepted t w Hidle Htask (proj1 Hc) Hpass).
    simpl in Hrun.
    set (mode := (Blinker.button_press_count w + 1) mod 4) in *.
    assert (Hmode : 0 <= mode < 4) by (apply Z.mod_pos_bound; lia).
    set (w0 := fst (Blinker.configure_led_timer mode (Blinker.woken tick t w))) in *.
    set (log0 := log ++ Blinker.activate_buzzer to_ticks
                 ++ snd (Blinker.configure_led_timer mode (Blinker.woken tick t w))) in *.
    assert (Hw0 : w0 = _) by (apply configure_world).
    assert (Hwave : waveform_after log0
                    = if mode <? 3
                      then Enabled (nth (Z.to_nat mode)
                                        Blinker.timer_periods 0)
                      else Disabled).
    { apply configure_waveform; [exact Hoff|apply buzzer_calls_no_timer]. }
    assert (Hcount0 : Blinker.button_press_count w0 = mode)
      by (rewrite Hw0; reflexivity).
    destruct (IH w0 log0) as (w1 & log1 & Hrest & Hcount & Hlast).
    + rewrite Hw0. reflexivity.
    + rewrite Hw0. reflexivity.
    + rewrite Hcount0. exact Hmode.
    + rewrite Hw0. simpl. destruct (mode <? 3); [discriminate|].
      intros _. exact Hwave.
    + rewrite Hw0. exact Hd.
    + exists w1, log1. split; [|split].
      * simpl. rewrite Hrun. exact Hrest.
      * rewrite Hcount, Hcount0. unfold mode.
        rewrite Zplus_mod_idemp_l. f_equal.
        change (length (t :: rest)) with (S (length rest)). lia.
      * intros _. destruct rest as [|t' rest'].
        -- simpl in Hrest. inversion Hrest; subst w1 log1.
           rewrite Hcount0. exact Hwave.
        -- apply Hlast. discriminate.
Qed.

End PressFacts.

Section PressClaims.
Import Int Hal.

(** C7.  With the table (1 Hz, 2 Hz, 4 Hz, off), the counter at 3 and the
    LED off, one accepted press is served: the counter becomes 0, the buzzer
    is driven high for the delay of [BUZZER_DURATION_MS] = 100 ms, that is
    100,000 us, and low again, and then a timer is created, given the alarm
    period 500,000 us of table entry 0, enabled and started. *)
Theorem press_from_off_starts_one_hertz
    (tick : Z) (to_ticks : Z -> Z) (t : Z) (w : Blinker.world)
    (Hcount : Blinker.button_press_count w = 3)
    (Hoff : Blinker.led_timer w = None)
    (Hidle : Blinker.notifications w = 0%nat)
    (Htask : Blinker.task_created w = true)
    (Hpass : sub_uint32 (to_uint32 (t * tick))
               (Blinker.last_interrupt_time w)
             > Blinker.debounce_time_ms) :
  let n := Blinker.next_timer w in
  exists w1 calls,
    Blinker.press tick to_ticks t w = Some (w1, calls)
    /\ Blinker.button_press_count w1 = 0
    /\ Blinker.led_timer w1 = Some n
    /\ calls
       = [gpio_set_level Blinker.BUZZER_GPIO 1;
          vTaskDelay (to_ticks Blinker.BUZZER_DURATION_MS);
          gpio_set_level Blinker.BUZZER_GPIO 0;
          gptimer_new_timer 1000000 n;
          gptimer_register_event_callbacks n;
          gptimer_set_alarm_action n 0 500000 true;
          gptimer_enable n;
          gptimer_start n]
    /\ waveform_after calls = Enabled 500000
    /\ nth 0 Blinker.timer_periods 0 = 500000
    /\ Blinker.BUZZER_DURATION_MS * 1000 = 100000.
Proof.
  intros n.
  assert (Hc : 0 <= Blinker.button_press_count w) by lia.
  assert (Hrun := press_accepted tick to_ticks t w Hidle Htask Hc Hpass).
  simpl in Hrun. rewrite Hcount in Hrun. change ((3 + 1) mod 4) with 0 in Hrun.
  eexists _, _. split; [exact Hrun|].
  rewrite configure_calls, configure_world. simpl. rewrite Hoff, Hcount.
  repeat split.
Qed.

Lemma press_from_off_starts_one_hertz_witness :
  let off := {| Blinker.led_timer := None;
                Blinker.button_press_count := 3;
                Blinker.last_interrupt_time := 300;
                Blinker.main_task_handle := true;
                Blinker.task_created := true;
                Blinker.notifications := 0;
                Blinker.next_timer := 3%nat |} in
  exists w1 calls,
    Blinker.press 10 (fun ms => ms * 100 / 1000) 40 off = Some (w1, calls)
    /\ Blinker.button_press_count w1 = 0
    /\ In (gptimer_set_alarm_action 3%nat 0 500000 true) calls
    /\ In (vTaskDelay 10) calls.
Proof.
  intros off.
  destruct (press_from_off_starts_one_hertz
              10 (fun ms => ms * 100 / 1000) 40 off)
    as (w1 & calls & Hrun & Hcount & _ & Hcalls & _);
    try reflexivity.
  exists w1, calls. split; [exact Hrun|]. split; [exact Hcount|].
  rewrite Hcalls. simpl. split; tauto.
Defined.

End PressClaims.


(** * More on the doorbell of src/unnamed/part_000 *)

Section DoorbellMore.
Import Int Queue Doorbell.

(** The two ways through the handler. *)
Lemma handler_cases (arg : Z) (e : raw_edge) (s : state) :
  gpio_isr_handler arg e s = (s, Bounced)
  \/ exists q ok,
       xQueueSendFromISR (gpio_evt_queue s) (event_of arg e) = (q, ok)
       /\ gpio_isr_handler arg e s
          = ({| last_interrupt_time := timestamp_us e; gpio_evt_queue := q;
                buzzer := buzzer s |}, Sent (event_of arg e) ok).
Proof.
  unfold gpio_isr_handler, event_of.
  destruct (sub_int64 (timestamp_us e) (last_interrupt_time s)
            <? DEBOUNCE_TIME_US); [left; reflexivity|right].
  destruct (xQueueSendFromISR (gpio_evt_queue s) _) as [q ok].
  exists q, ok. split; reflexivity.
Qed.

Lemma send_items (q : queue gpio_event_t) (x : gpio_event_t) :
  (length (items q) <= uxLength q)%nat ->
  items (fst (xQueueSendFromISR q x)) = firstn (uxLength q) (items q ++ [x])
  /\ uxLength (fst (xQueueSendFromISR q x)) = uxLength q.
Proof.
  intros Hb. unfold xQueueSendFromISR, is_full.
  destruct (uxLength q <=? length (items q))%nat eqn:Hf; simpl.
  - apply Nat.leb_le in Hf. split; [|reflexivity].
    rewrite firstn_app, firstn_all2 by lia.
    replace (uxLength q - length (items q))%nat with 0%nat by lia.
    simpl. now rewrite app_nil_r.
  - apply Nat.leb_gt in Hf. split; [|reflexivity].
    rewrite firstn_all2; [reflexivity|]. rewrite length_app. simpl. lia.
Qed.

Lemma firstn_absorb (n : nat) (a b : list gpio_event_t) :
  firstn n (firstn n a ++ b) = firstn n (a ++ b).
Proof.
  destruct (Nat.le_gt_cases (length a) n) as [Hle|Hgt].
  - now rewrite (firstn_all2 a Hle).
  - rewrite !firstn_app, firstn_firstn, Nat.min_id, length_firstn.
    replace (n - Nat.min n (length a))%nat with 0%nat by lia.
    replace (n - length a)%nat with 0%nat by lia. reflexivity.
Qed.

(** X1.  Whatever the edges, two events the filter lets through are never
    less than one settle window apart, and the first is at least one window
    after the reference time. *)
Theorem accepted_edges_are_spaced
    (arg : Z) (es : list raw_edge) (s : state)
    (Hs : is_time_us (last_interrupt_time s))
    (Hin : Forall edge_in_time es) :
  spaced (last_interrupt_time s) (map timestamp_us (accepted_edges arg es s)).
Proof.
  revert s Hs. induction Hin as [|e es He Hin IH]; intros s Hs.
  - exact I.
  - rewrite accepted_cons.
    destruct (Z_lt_ge_dec (timestamp_us e - last_interrupt_time s)
                          DEBOUNCE_TIME_US) as [Hlt|Hge].
    + rewrite (bounced_state arg e s He Hs Hlt). simpl. apply IH, Hs.
    + apply Z.ge_le in Hge.
      destruct (passed_state arg e s He Hs Hge) as (q & ok & _ & Hrun).
      rewrite Hrun. simpl. split; [exact Hge|].
      apply (IH {| last_interrupt_time := timestamp_us e;
                   gpio_evt_queue := q; buzzer := buzzer s |}).
      exact He.
Qed.

Lemma accepted_edges_are_spaced_witness :
  spaced 0
    (map timestamp_us
       (accepted_edges BUTTON_GPIO
          [mkEdge 70000 0; mkEdge 90000 1; mkEdge 119999 0; mkEdge 120000 1;
           mkEdge 130000 0] boot)).
Proof.
  apply (accepted_edges_are_spaced BUTTON_GPIO
           [mkEdge 70000 0; mkEdge 90000 1; mkEdge 119999 0; mkEdge 120000 1;
            mkEdge 130000 0] boot).
  - unfold is_time_us. simpl. lia.
  - repeat constructor; unfold edge_in_time, is_time_us; simpl; lia.
Defined.

(** The queue after the handler has run on a sequence of edges. *)
Lemma isr_run_queue
    (arg : Z) (es : list raw_edge) (s : state)
    (Hfit : (length (items (gpio_evt_queue s))
             <= uxLength (gpio_evt_queue s))%nat) :
  let q := gpio_evt_queue s in
  let q1 := gpio_evt_queue (isr_run arg es s) in
  items q1
  = firstn (uxLength q)
      (items q ++ map (event_of arg) (accepted_edges arg es s))
  /\ uxLength q1 = uxLength q
  /\ (length (items q1) <= uxLength q)%nat.
Proof.
  revert s Hfit. induction es as [|e es IH]; intros s Hfit; simpl.
  - unfold accepted_edges. simpl. rewrite app_nil_r.
    rewrite firstn_all2 by exact Hfit. repeat split. exact Hfit.
  - rewrite accepted_cons.
    destruct (handler_cases arg e s) as [Hb|(q & ok & Hsend & Hrun)].
    + rewrite Hb. simpl. apply IH, Hfit.
    + rewrite Hrun. simpl fst. simpl snd. simpl produced. cbv iota.
      destruct (send_items (gpio_evt_queue s) (event_of arg e) Hfit)
        as [Hitems Hcap].
      rewrite Hsend in Hitems, Hcap. simpl in Hitems, Hcap.
      set (s1 := {| last_interrupt_time := timestamp_us e;
                    gpio_evt_queue := q; buzzer := buzzer s |}).
      assert (Hfit1 : (length (items (gpio_evt_queue s1))
                       <= uxLength (gpio_evt_queue s1))%nat).
      { simpl. rewrite Hitems, Hcap. apply firstn_le_length. }
      destruct (IH s1 Hfit1) as (Hi & Hc & Hl).
      simpl in Hi, Hc, Hl. rewrite Hcap in Hi, Hc, Hl.
      split; [|split; assumption].
      rewrite Hi, Hitems, firstn_absorb, <- app_assoc. reflexivity.
Qed.

(** X2.  With no consumer running, the queue after any sequence of edges
    holds what it held before followed by the events of the accepted edges,
    in order, cut at its capacity: accepted events that find the queue full
    are lost and later ones never overtake earlier ones. *)
Theorem queue_holds_first_accepted_events
    (arg : Z) (es : list raw_edge) (s : state)
    (Hfit : (length (items (gpio_evt_queue s))
             <= uxLength (gpio_evt_queue s))%nat) :
  let q := gpio_evt_queue s in
  let q1 := gpio_evt_queue (isr_run arg es s) in
  items q1
  = firstn (uxLength q)
      (items q ++ map (event_of arg) (accepted_edges arg es s))
  /\ uxLength q1 = uxLength q
  /\ (length (items q1) <= uxLength q)%nat.
Proof. exact (isr_run_queue arg es s Hfit). Qed.

Lemma queue_holds_first_accepted_events_witness :
  let es := map (fun k => mkEdge (k * 50000) (k mod 2))
                [1; 2; 3; 4; 5; 6; 7; 8; 9; 10; 11; 12] in
  map level (items (gpio_evt_queue (isr_run BUTTON_GPIO es boot)))
  = [1; 0; 1; 0; 1; 0; 1; 0; 1; 0].
Proof.
  intros es.
  rewrite (proj1 (queue_holds_first_accepted_events BUTTON_GPIO es boot
                    (Nat.le_0_l 10))).
  reflexivity.
Defined.

End DoorbellMore.

Section DoorbellPipeline.
Import Int Queue Doorbell.

(** [n] turns of the task on a queue that holds at least [n] events take
    the [n] oldest ones and leave the buzzer as the last of them says. *)
Lemma task_run_takes (n : nat) :
  forall (s : state) (d : gpio_event_t),
    (n <= length (items (gpio_evt_queue s)))%nat ->
    task_run n s
    = Some {| last_interrupt_time := last_interrupt_time s;
              gpio_evt_queue :=
                {| uxLength := uxLength (gpio_evt_queue s);
                   items := skipn n (items (gpio_evt_queue s)) |};
              buzzer :=
                match n with
                | O => buzzer s
                | S k => sound (nth k (items (gpio_evt_queue s)) d)
                end |}.
Proof.
  induction n as [|n IH]; intros [t [cap l] b] d Hn; simpl in *.
  - reflexivity.
  - destruct l as [|x rest]; [simpl in Hn; lia|].
    unfold gpio_task, xQueueReceive. simpl.
    rewrite (IH _ d) by (simpl in *; lia). simpl.
    destruct n; reflexivity.
Qed.

Lemma task_run_blocks (n : nat) :
  forall s : state,
    (length (items (gpio_evt_queue s)) < n)%nat -> task_run n s = None.
Proof.
  induction n as [|n IH]; intros [t [cap l] b] Hn; simpl in *; [lia|].
  unfold gpio_task, xQueueReceive. simpl.
  destruct l as [|x rest]; [reflexivity|].
  apply IH. simpl in *. lia.
Qed.

(** X3.  Starting with an empty queue, after any sequence of edges the
    n-th turn of the task drives the buzzer from the level sampled in the
    handler at the n-th accepted edge, however much later the task runs, as
    long as that event found room in the queue; the task blocks once it has
    taken every queued event. *)
Theorem nth_turn_sounds_nth_accepted_edge
    (arg : Z) (es : list raw_edge) (s : state) (n : nat) (d : raw_edge)
    (Hempty : items (gpio_evt_queue s) = [])
    (Hn : (n < length (accepted_edges arg es s))%nat)
    (Hroom : (n < uxLength (gpio_evt_queue s))%nat) :
  let s1 := isr_run arg es s in
  (exists s2,
     task_run (S n) s1 = Some s2
     /\ buzzer s2
        = (if to_uint32 (sampled_level (nth n (accepted_edges arg es s) d))
              =? 0
           then 1 else 0)
     /\ last_interrupt_time s2 = last_interrupt_time s1)
  /\ task_run (S (length (items (gpio_evt_queue s1)))) s1 = None.
Proof.
  intros s1.
  assert (Hfit : (length (items (gpio_evt_queue s))
                  <= uxLength (gpio_evt_queue s))%nat)
    by (rewrite Hempty; simpl; lia).
  destruct (isr_run_queue arg es s Hfit) as (Hitems & Hcap & _).
  fold s1 in Hitems, Hcap. rewrite Hempty in Hitems. simpl in Hitems.
  split; [|apply task_run_blocks; lia].
  eexists. split; [|split].
  - apply (task_run_takes (S n) s1 (event_of arg d)).
    rewrite Hitems, length_firstn, length_map. lia.
  - simpl. rewrite Hitems, nth_firstn.
    apply Nat.ltb_lt in Hroom. rewrite Hroom.
    rewrite (map_nth (event_of arg)). reflexivity.
  - reflexivity.
Qed.

Lemma nth_turn_sounds_nth_accepted_edge_witness :
  let es := [mkEdge 60000 0; mkEdge 61000 1; mkEdge 200000 1;
             mkEdge 300000 0] in
  option_map buzzer (task_run 2 (isr_run BUTTON_GPIO es boot)) = Some 0.
Proof.
  intros es.
  destruct (nth_turn_sounds_nth_accepted_edge BUTTON_GPIO es boot 1
              (mkEdge 0 0)) as [(s2 & Hrun & Hbuzz & _) _].
  - reflexivity.
  - vm_compute. lia.
  - vm_compute. lia.
  - rewrite Hrun. simpl. rewrite Hbuzz. reflexivity.
Defined.

(** The filter looks at [last_interrupt_time] only. *)
Lemma filter_depends_on_reference_time (arg : Z) (es : list raw_edge) :
  forall s s' : state,
    last_interrupt_time s = last_interrupt_time s' ->
    accepted_edges arg es s = accepted_edges arg es s'
    /\ last_interrupt_time (isr_run arg es s)
       = last_interrupt_time (isr_run arg es s').
Proof.
  induction es as [|e es IH]; intros s s' Hlast.
  - split; [reflexivity|exact Hlast].
  - rewrite !accepted_cons. simpl isr_run.
    unfold gpio_isr_handler. rewrite <- Hlast.
    destruct (sub_int64 (timestamp_us e) (last_interrupt_time s)
              <? DEBOUNCE_TIME_US).
    + simpl. apply IH, Hlast.
    + destruct (xQueueSendFromISR (gpio_evt_queue s) _) as [q ok].
      destruct (xQueueSendFromISR (gpio_evt_queue s') _) as [q' ok'].
      simpl.
      destruct (IH {| last_interrupt_time := timestamp_us e;
                      gpio_evt_queue := q; buzzer := buzzer s |}
                   {| last_interrupt_time := timestamp_us e;
                      gpio_evt_queue := q'; buzzer := buzzer s' |}
                   eq_refl) as [Ha Hl].
      split; [now rewrite Ha|exact Hl].
Qed.

(** X4.  The task cannot disturb the filter: however the turns of the task
    are interleaved with the edges, the filter accepts exactly the edges it
    would accept with no task running, and ends with the same reference
    time. *)
Theorem task_turns_do_not_change_the_filter
    (arg : Z) (acts : list action) (s : state) :
  snd (exec arg acts s) = accepted_edges arg (edges_of acts) s
  /\ last_interrupt_time (fst (exec arg acts s))
     = last_interrupt_time (isr_run arg (edges_of acts) s).
Proof.
  assert (H : forall s s' : state,
             last_interrupt_time s = last_interrupt_time s' ->
             snd (exec arg acts s) = accepted_edges arg (edges_of acts) s'
             /\ last_interrupt_time (fst (exec arg acts s))
                = last_interrupt_time (isr_run arg (edges_of acts) s')).
  { induction acts as [|[e|] acts IH]; intros s0 s' Hlast.
    - split; [reflexivity|exact Hlast].
    - simpl exec. simpl edges_of. rewrite accepted_cons. simpl isr_run.
      unfold gpio_isr_handler. rewrite <- Hlast.
      destruct (sub_int64 (timestamp_us e) (last_interrupt_time s0)
                <? DEBOUNCE_TIME_US).
      + destruct (IH s0 s' Hlast) as [Ha Hl].
        destruct (exec arg acts s0) as [s2 acc]. simpl in *.
        split; assumption.
      + destruct (xQueueSendFromISR (gpio_evt_queue s0) _) as [q ok].
        destruct (xQueueSendFromISR (gpio_evt_queue s') _) as [q' ok'].
        destruct (IH {| last_interrupt_time := timestamp_us e;
                        gpio_evt_queue := q; buzzer := buzzer s0 |}
                     {| last_interrupt_time := timestamp_us e;
                        gpio_evt_queue := q'; buzzer := buzzer s' |}
                     eq_refl) as [Ha Hl].
        destruct (exec arg acts _) as [s2 acc]. simpl in *.
        split; [now rewrite Ha|exact Hl].
    - simpl exec. simpl edges_of. unfold gpio_task, xQueueReceive.
      destruct (items (gpio_evt_queue s0)) as [|x rest].
      + apply IH, Hlast.
      + apply IH. exact Hlast. }
  apply H. reflexivity.
Qed.

End DoorbellPipeline.


(** * The other two doorbells *)

Section DoorbellVariants.
Import Int Queue.

(** X5.  The handler of the first program of runs/2026-02-12_18-59-37
    accepts an edge only when more than one settle window has elapsed:
    whatever the edges, two accepted ones are strictly more than one window
    apart, and an edge exactly one window after the reference time is
    dropped. *)
Theorem reread_accepted_edges_are_strictly_apart
    (arg : Z) (ts : list Z) (s : DoorbellReread.state)
    (Hs : is_time_us (DoorbellReread.last_interrupt_time s))
    (Hin : Forall is_time_us ts) :
  DoorbellReread.apart (DoorbellReread.last_interrupt_time s)
    (DoorbellReread.isr_accepted arg ts s)
  /\ forall t : Z,
       is_time_us t ->
       t - DoorbellReread.last_interrupt_time s
       = DoorbellReread.DEBOUNCE_TIME_US ->
       DoorbellReread.gpio_isr_handler arg t s = (s, false).
Proof.
  split.
  - revert s Hs. induction Hin as [|t ts Ht Hin IH]; intros s Hs.
    + exact I.
    + simpl. unfold DoorbellReread.gpio_isr_handler.
      rewrite (sub_int64_times _ _ Ht Hs).
      destruct (t - DoorbellReread.last_interrupt_time s
                >? DoorbellReread.DEBOUNCE_TIME_US) eqn:Hgt.
      * destruct (xQueueSendFromISR _ _) as [q ok]. simpl.
        apply Z.gtb_lt in Hgt. split; [exact Hgt|].
        apply (IH {| DoorbellReread.last_interrupt_time := t;
                     DoorbellReread.gpio_evt_queue := q;
                     DoorbellReread.buzzer := DoorbellReread.buzzer s |}).
        exact Ht.
      * apply IH, Hs.
  - intros t Ht Heq. unfold DoorbellReread.gpio_isr_handler.
    rewrite (sub_int64_times _ _ Ht Hs), Heq.
    rewrite Z.gtb_ltb, Z.ltb_irrefl. reflexivity.
Qed.

Lemma reread_accepted_edges_are_strictly_apart_witness :
  DoorbellReread.isr_accepted 21 [50000; 100000; 150000; 200001]
    DoorbellReread.boot = [100000; 200001]
  /\ DoorbellReread.apart 0
       (DoorbellReread.isr_accepted 21 [50000; 100000; 150000; 200001]
          DoorbellReread.boot).
Proof.
  split; [reflexivity|].
  apply (reread_accepted_edges_are_strictly_apart 21
           [50000; 100000; 150000; 200001] DoorbellReread.boot).
  - unfold is_time_us. simpl. lia.
  - repeat constructor; unfold is_time_us; lia.
Defined.

(** X6.  The doorbell of runs/2026-02-12_19-38-55, which queues the bare
    level, and the one of src/unnamed/part_000, which queues a record, are
    indistinguishable: for every interleaving of edges and task turns from
    boot, with the pin reading 0 or 1, they accept the same edges, keep the
    same reference time, hold the same levels in their queues and drive the
    buzzer alike. *)
Theorem level_doorbell_matches_event_doorbell
    (arg : Z) (acts : list Doorbell.action)
    (Hlev : Forall (fun e => 0 <= Doorbell.sampled_level e <= 1)
                   (Doorbell.edges_of acts)) :
  let r := Doorbell.exec arg acts Doorbell.boot in
  let r' := DoorbellLevel.exec acts DoorbellLevel.boot in
  snd r = snd r'
  /\ Doorbell.buzzer (fst r) = DoorbellLevel.buzzer (fst r')
  /\ Doorbell.last_interrupt_time (fst r)
     = DoorbellLevel.last_interrupt_time (fst r')
  /\ map Doorbell.level (items (Doorbell.gpio_evt_queue (fst r)))
     = items (DoorbellLevel.gpio_evt_queue (fst r')).
Proof.
  assert (H : forall (s : Doorbell.state) (s' : DoorbellLevel.state),
             Doorbell.last_interrupt_time s
             = DoorbellLevel.last_interrupt_time s' ->
             Doorbell.buzzer s = DoorbellLevel.buzzer s' ->
             uxLength (Doorbell.gpio_evt_queue s)
             = uxLength (DoorbellLevel.gpio_evt_queue s') ->
             map Doorbell.level (items (Doorbell.gpio_evt_queue s))
             = items (DoorbellLevel.gpio_evt_queue s') ->
             let r := Doorbell.exec arg acts s in
             let r' := DoorbellLevel.exec acts s' in
             snd r = snd r'
             /\ Doorbell.buzzer (fst r) = DoorbellLevel.buzzer (fst r')
             /\ Doorbell.last_interrupt_time (fst r)
                = DoorbellLevel.last_interrupt_time (fst r')
             /\ map Doorbell.level (items (Doorbell.gpio_evt_queue (fst r)))
                = items (DoorbellLevel.gpio_evt_queue (fst r'))).
  { induction acts as [|[e|] acts IH];
      intros [t [cap l] b] [t' [cap' l'] b'] Ht Hb Hc Hl;
      simpl in Ht, Hb, Hc, Hl; subst t' b' cap' l'.
    - simpl. repeat split.
    - simpl in Hlev. inversion Hlev as [|? ? He Hlev']; subst.
      specialize (IH Hlev').
      simpl Doorbell.exec. simpl DoorbellLevel.exec.
      unfold Doorbell.gpio_isr_handler, DoorbellLevel.gpio_isr_handler.
      simpl Doorbell.last_interrupt_time.
      simpl DoorbellLevel.last_interrupt_time.
      change DoorbellLevel.DEBOUNCE_TIME_US with Doorbell.DEBOUNCE_TIME_US.
      destruct (sub_int64 (Doorbell.timestamp_us e) t
                <? Doorbell.DEBOUNCE_TIME_US).
      + specialize (IH (Doorbell.mkState t (mkQueue cap l) b)
                       (DoorbellLevel.mkState t
                          (mkQueue cap (map Doorbell.level l)) b)
                       eq_refl eq_refl eq_refl eq_refl).
        simpl in IH.
        destruct (Doorbell.exec arg acts _) as [s2 acc].
        destruct (DoorbellLevel.exec acts _) as [s2' acc'].
        exact IH.
      + unfold xQueueSendFromISR, is_full. simpl. rewrite length_map.
        destruct (cap <=? length l)%nat.
        * specialize (IH (Doorbell.mkState (Doorbell.timestamp_us e)
                            (mkQueue cap l) b)
                         (DoorbellLevel.mkState (Doorbell.timestamp_us e)
                            (mkQueue cap (map Doorbell.level l)) b)
                         eq_refl eq_refl eq_refl eq_refl).
          simpl in IH.
          destruct (Doorbell.exec arg acts _) as [s2 acc].
          destruct (DoorbellLevel.exec acts _) as [s2' acc'].
          simpl in *. destruct IH as (Ha & IH). split; [now rewrite Ha|exact IH].
        * assert (Hq : map Doorbell.level
                         (l ++ [{| Doorbell.gpio_num := to_uint32 arg;
                                   Doorbell.level :=
                                     to_uint32 (Doorbell.sampled_level e) |}])
                       = map Doorbell.level l ++ [Doorbell.sampled_level e]).
          { rewrite map_app. simpl. unfold to_uint32.
            rewrite Z.mod_small by lia. reflexivity. }
          specialize (IH (Doorbell.mkState (Doorbell.timestamp_us e)
                            (mkQueue cap (l ++ [_])) b)
                         (DoorbellLevel.mkState (Doorbell.timestamp_us e)
                            (mkQueue cap (map Doorbell.level l
                                          ++ [Doorbell.sampled_level e])) b)
                         eq_refl eq_refl eq_refl Hq).
          simpl in IH.
          destruct (Doorbell.exec arg acts _) as [s2 acc].
          destruct (DoorbellLevel.exec acts _) as [s2' acc'].
          simpl in *. destruct IH as (Ha & IH). split; [now rewrite Ha|exact IH].
    - simpl in Hlev. specialize (IH Hlev).
      simpl Doorbell.exec. simpl DoorbellLevel.exec.
      unfold Doorbell.gpio_task, DoorbellLevel.buzzer_control_task,
        xQueueReceive. simpl.
      destruct l as [|x rest]; simpl.
      + apply (IH (Doorbell.mkState t (mkQueue cap []) b)
                  (DoorbellLevel.mkState t (mkQueue cap []) b));
          reflexivity.
      + apply (IH (Doorbell.mkState t (mkQueue cap rest) _)
                  (DoorbellLevel.mkState t
                     (mkQueue cap (map Doorbell.level rest)) _));
          reflexivity. }
  apply H; reflexivity.
Qed.

Lemma level_doorbell_matches_event_doorbell_witness :
  let acts := [Doorbell.Edge (Doorbell.mkEdge 60000 0); Doorbell.Turn;
               Doorbell.Edge (Doorbell.mkEdge 70000 1);
               Doorbell.Edge (Doorbell.mkEdge 200000 1); Doorbell.Turn] in
  Doorbell.buzzer (fst (Doorbell.exec 21 acts Doorbell.boot))
  = DoorbellLevel.buzzer (fst (DoorbellLevel.exec acts DoorbellLevel.boot)).
Proof.
  intros acts.
  refine (proj1 (proj2 (level_doorbell_matches_event_doorbell 21 acts _))).
  repeat constructor; simpl; lia.
Defined.

End DoorbellVariants.


(** * Two LEDs on two timers *)

Section DualTimerMore.
Import Int DualTimer.

Lemma lnot_bit (x : Z) :
  x = 0 \/ x = 1 -> to_uint8 (lnot x) = (x + 1) mod 2.
Proof. intros [H|H]; subst x; reflexivity. Qed.

Lemma alarms_parity (fired : list bool) :
  forall l : leds,
    (led_state1 l = 0 \/ led_state1 l = 1) ->
    (led_state2 l = 0 \/ led_state2 l = 1) ->
    led1 l = led_state1 l -> led2 l = led_state2 l ->
    let l1 := alarms fired l in
    led1 l1
    = (led_state1 l + Z.of_nat (length (filter (fun b => b) fired))) mod 2
    /\ led2 l1
       = (led_state2 l + Z.of_nat (length (filter negb fired))) mod 2
    /\ led_state1 l1 = led1 l1 /\ led_state2 l1 = led2 l1.
Proof.
  induction fired as [|b fired IH]; intros l H1 H2 Hp1 Hp2.
  - simpl. rewrite !Z.add_0_r.
    destruct H1 as [H1|H1], H2 as [H2|H2]; rewrite Hp1, Hp2, H1, H2;
      repeat split; symmetry; assumption.
  - change (alarms (b :: fired) l)
      with (alarms fired (if b then fst (timer1_callback l)
                          else fst (timer2_callback l))).
    cbv zeta.
    assert (Hb1 : 0 <= (led_state1 l + 1) mod 2 < 2)
      by (apply Z.mod_pos_bound; lia).
    assert (Hb2 : 0 <= (led_state2 l + 1) mod 2 < 2)
      by (apply Z.mod_pos_bound; lia).
    destruct b; simpl filter; simpl length.
    + set (l' := fst (timer1_callback l)).
      assert (Hs1 : led_state1 l' = (led_state1 l + 1) mod 2)
        by (apply lnot_bit, H1).
      assert (Hl1 : led1 l' = (led_state1 l + 1) mod 2)
        by (apply lnot_bit, H1).
      destruct (IH l') as (Ha & Hb & Hc & Hd).
      * rewrite Hs1. lia.
      * exact H2.
      * now rewrite Hl1, Hs1.
      * exact Hp2.
      * split; [|split; [exact Hb|split; assumption]].
        rewrite Ha, Hs1, Zplus_mod_idemp_l. f_equal. lia.
    + set (l' := fst (timer2_callback l)).
      assert (Hs2 : led_state2 l' = (led_state2 l + 1) mod 2)
        by (apply lnot_bit, H2).
      assert (Hl2 : led2 l' = (led_state2 l + 1) mod 2)
        by (apply lnot_bit, H2).
      destruct (IH l') as (Ha & Hb & Hc & Hd).
      * exact H1.
      * rewrite Hs2. lia.
      * exact Hp1.
      * now rewrite Hl2, Hs2.
      * split; [exact Ha|split; [|split; assumption]].
        rewrite Hb, Hs2, Zplus_mod_idemp_l. f_equal. lia.
Qed.

(** X7.  In any order the two timers fire, each LED shows the parity of the
    number of alarms of its own timer: on after an odd number, off after an
    even number, whatever the other timer did. *)
Theorem dual_timer_leds_follow_own_alarm_parity (fired : list bool) :
  let l := alarms fired boot in
  led1 l = Z.of_nat (length (filter (fun b => b) fired)) mod 2
  /\ led2 l = Z.of_nat (length (filter negb fired)) mod 2.
Proof.
  destruct (alarms_parity fired boot) as (Ha & Hb & _);
    try reflexivity; try (left; reflexivity).
  split; assumption.
Qed.

End DualTimerMore.


(** * More on the general purpose timer program *)

Section BlinkerMore.
Import Int Hal.
Variable tick : Z.
Variable to_ticks : Z -> Z.

Lemma isr_keeps_timer (t : Z) (w : Blinker.world) :
  Blinker.led_timer (Blinker.button_isr_handler tick t w)
  = Blinker.led_timer w
  /\ Blinker.next_timer (Blinker.button_isr_handler tick t w)
     = Blinker.next_timer w.
Proof.
  unfold Blinker.button_isr_handler.
  destruct (_ >? _); split; reflexivity.
Qed.

(** A served press is a buzzer pulse followed by one reconfiguration. *)
Lemma press_shape (t : Z) (w w1 : Blinker.world) (calls : list call) :
  Blinker.press tick to_ticks t w = Some (w1, calls) ->
  exists mode w0,
    Blinker.led_timer w0 = Blinker.led_timer w
    /\ Blinker.next_timer w0 = Blinker.next_timer w
    /\ w1 = fst (Blinker.configure_led_timer mode w0)
    /\ calls = Blinker.activate_buzzer to_ticks
               ++ snd (Blinker.configure_led_timer mode w0).
Proof.
  unfold Blinker.press, Blinker.main_task.
  destruct (isr_keeps_timer t w) as [Hl Hn].
  destruct (Blinker.notifications _); [discriminate|].
  match goal with
  | |- context [Blinker.configure_led_timer ?m ?w0] =>
      destruct (Blinker.configure_led_timer m w0) as [w2 c] eqn:Hc;
      intros H; inversion H; subst w1 calls;
      exists m, w0; rewrite Hc; simpl; repeat split;
      [exact Hl|exact Hn]
  end.
Qed.

Lemma pulse_keeps_live (pulse : list call) (alive : list handle) :
  Forall (fun c => target c = None) pulse ->
  live_after alive pulse = alive.
Proof.
  intros Hp. revert alive. induction Hp as [|c cs Hc _ IH]; intros alive;
    [reflexivity|].
  unfold live_after in *. simpl. rewrite <- (IH alive) at 2. f_equal.
  destruct c; simpl in Hc; try discriminate Hc; reflexivity.
Qed.

Lemma configure_live (mode : Z) (w : Blinker.world) (log pulse : list call) :
  live_after [] log
  = match Blinker.led_timer w with Some t => [t] | None => [] end ->
  Forall (fun c => target c = None) pulse ->
  live_after []
    (log ++ pulse ++ snd (Blinker.configure_led_timer mode w))
  = match Blinker.led_timer (fst (Blinker.configure_led_timer mode w)) with
    | Some t => [t]
    | None => []
    end.
Proof.
  intros Hlive Hp. unfold live_after in *. rewrite !fold_left_app, Hlive.
  fold (live_after
          match Blinker.led_timer w with Some t => [t] | None => [] end
          pulse).
  rewrite (pulse_keeps_live _ _ Hp), configure_calls, configure_world.
  destruct (Blinker.led_timer w) as [t|]; destruct (mode <? 3); simpl;
    rewrite ?Nat.eqb_refl; reflexivity.
Qed.

Lemma presses_live (ts : list Z) :
  forall (w w1 : Blinker.world) (log log1 : list call),
    Blinker.presses tick to_ticks ts w log = Some (w1, log1) ->
    live_after [] log
    = match Blinker.led_timer w with Some t => [t] | None => [] end ->
    live_after [] log1
    = match Blinker.led_timer w1 with Some t => [t] | None => [] end.
Proof.
  induction ts as [|t ts IH]; intros w w1 log log1 Hrun Hlive; simpl in Hrun.
  - inversion Hrun; subst. exact Hlive.
  - destruct (Blinker.press tick to_ticks t w) as [[w2 calls]|] eqn:Hp;
      [|discriminate].
    destruct (press_shape t w w2 calls Hp) as (mode & w0 & Hl & _ & Hw & Hc).
    apply (IH w2 w1 (log ++ calls) log1 Hrun).
    subst w2 calls. apply configure_live.
    + now rewrite Hl.
    + apply buzzer_calls_no_timer.
Qed.

End BlinkerMore.

Section BlinkerEdges.
Import Int Hal.
Variable tick : Z.
Variable to_ticks : Z -> Z.

(** The globals after presses that all pass the debounce check and no turn
    of the task in between. *)
Lemma isr_run_facts (ts : list Z) :
  forall w : Blinker.world,
    Blinker.debounced tick (Blinker.last_interrupt_time w) ts ->
    0 <= Blinker.button_press_count w < 4 ->
    let w1 := Blinker.isr_run tick ts w in
    let found := Blinker.main_task_handle w || Blinker.task_created w in
    Blinker.led_timer w1 = Blinker.led_timer w
    /\ Blinker.next_timer w1 = Blinker.next_timer w
    /\ Blinker.task_created w1 = Blinker.task_created w
    /\ Blinker.button_press_count w1
       = (Blinker.button_press_count w + Z.of_nat (length ts)) mod 4
    /\ Blinker.notifications w1
       = (Blinker.notifications w + if found then length ts else 0)%nat
    /\ (Blinker.main_task_handle w1 || Blinker.task_created w1 = found).
Proof.
  induction ts as [|t ts IH]; intros w Hd Hc; cbv zeta.
  - simpl. rewrite Z.add_0_r, Z.mod_small by lia.
    repeat split. destruct (_ || _); lia.
  - simpl in Hd. destruct Hd as [Hpass Hd].
    change (Blinker.isr_run tick (t :: ts) w)
      with (Blinker.isr_run tick ts (Blinker.button_isr_handler tick t w)).
    assert (Hw := isr_accepted tick t w Hpass (proj1 Hc)). cbv zeta in Hw.
    assert (Hb : 0 <= (Blinker.button_press_count w + 1) mod 4 < 4)
      by (apply Z.mod_pos_bound; lia).
    set (w0 := Blinker.button_isr_handler tick t w) in *.
    assert (P1 : Blinker.led_timer w0 = Blinker.led_timer w)
      by (rewrite Hw; reflexivity).
    assert (P2 : Blinker.next_timer w0 = Blinker.next_timer w)
      by (rewrite Hw; reflexivity).
    assert (P3 : Blinker.task_created w0 = Blinker.task_created w)
      by (rewrite Hw; reflexivity).
    assert (P4 : Blinker.button_press_count w0
                 = (Blinker.button_press_count w + 1) mod 4)
      by (rewrite Hw; reflexivity).
    assert (P5 : Blinker.notifications w0
                 = if Blinker.main_task_handle w || Blinker.task_created w
                   then S (Blinker.notifications w)
                   else Blinker.notifications w)
      by (rewrite Hw; destruct (Blinker.main_task_handle w); reflexivity).
    assert (P6 : Blinker.main_task_handle w0
                 = Blinker.main_task_handle w || Blinker.task_created w)
      by (rewrite Hw; destruct (Blinker.main_task_handle w); reflexivity).
    assert (P7 : Blinker.last_interrupt_time w0 = to_uint32 (t * tick))
      by (rewrite Hw; reflexivity).
    destruct (IH w0) as (H1 & H2 & H3 & H4 & H5 & H6);
      [rewrite P7; exact Hd|rewrite P4; exact Hb|].
    rewrite P1 in H1. rewrite P2 in H2. rewrite P3 in H3. rewrite P4 in H4.
    rewrite P5, P6, P3 in H5. rewrite P6, P3 in H6.
    split; [exact H1|]. split; [exact H2|]. split; [exact H3|].
    split; [|split].
    + rewrite H4, Zplus_mod_idemp_l. f_equal.
      change (length (t :: ts)) with (S (length ts)). lia.
    + rewrite H5. change (length (t :: ts)) with (S (length ts)).
      destruct (Blinker.main_task_handle w), (Blinker.task_created w);
        simpl; lia.
    + rewrite H6.
      destruct (Blinker.main_task_handle w), (Blinker.task_created w);
        reflexivity.
Qed.

End BlinkerEdges.

Section BlinkerEdgeClaims.
Import Int Hal.

(** X9.  Presses are counted one by one but served at most once per turn:
    when n >= 1 presses pass the debounce check before the task runs, the
    one turn that follows sounds the buzzer once, programs the mode n steps
    further round the cycle and takes all n notifications, so the task
    blocks again right after. *)
Theorem pending_presses_are_served_in_one_turn
    (tick : Z) (to_ticks : Z -> Z) (ts : list Z) (w : Blinker.world)
    (Hne : ts <> [])
    (Hd : Blinker.debounced tick (Blinker.last_interrupt_time w) ts)
    (Hc : 0 <= Blinker.button_press_count w < 4)
    (Htask : Blinker.task_created w = true)
    (Hidle : Blinker.notifications w = 0%nat) :
  let w1 := Blinker.isr_run tick ts w in
  let mode := (Blinker.button_press_count w + Z.of_nat (length ts)) mod 4 in
  Blinker.notifications w1 = length ts
  /\ exists w2 calls,
       Blinker.main_task to_ticks w1 = Some (w2, calls)
       /\ calls = Blinker.activate_buzzer to_ticks
                  ++ snd (Blinker.configure_led_timer mode w)
       /\ Blinker.button_press_count w2 = mode
       /\ Blinker.notifications w2 = 0%nat
       /\ Blinker.main_task to_ticks w2 = None.
Proof.
  intros w1 mode.
  destruct (isr_run_facts tick ts w Hd Hc) as (H1 & H2 & H3 & H4 & H5 & _).
  fold w1 in H1, H2, H3, H4, H5. fold mode in H4.
  rewrite Htask, Bool.orb_true_r, Hidle in H5. simpl in H5.
  split; [exact H5|].
  unfold Blinker.main_task at 1. rewrite H5.
  destruct ts as [|t ts']; [congruence|]. simpl length. cbv iota.
  cbn [Blinker.button_press_count].
  match goal with
  | |- context [Blinker.configure_led_timer ?m ?w0] =>
      assert (Hcalls : snd (Blinker.configure_led_timer m w0)
                       = snd (Blinker.configure_led_timer mode w))
        by (rewrite !configure_calls; cbn [Blinker.led_timer
              Blinker.next_timer]; rewrite H1, H2, H4; reflexivity);
      assert (Hworld := configure_world m w0);
      destruct (Blinker.configure_led_timer m w0) as [w2 calls]
  end.
  simpl in Hcalls, Hworld. subst calls.
  exists w2, (Blinker.activate_buzzer to_ticks
              ++ snd (Blinker.configure_led_timer mode w)).
  split; [reflexivity|]. split; [reflexivity|].
  rewrite Hworld. simpl. split; [exact H4|]. split; reflexivity.
Qed.

Lemma pending_presses_are_served_in_one_turn_witness :
  Blinker.notifications (Blinker.isr_run 10 [10; 20; 30] Blinker.boot)
  = 3%nat.
Proof.
  refine (proj1 (pending_presses_are_served_in_one_turn
                   10 (fun ms => ms / 10) [10; 20; 30] Blinker.boot
                   _ _ _ eq_refl eq_refl)).
  - discriminate.
  - vm_compute. repeat split.
  - simpl. lia.
Defined.

(** X10.  While no task named main_task exists, presses that pass the
    debounce check still advance the counter but post no notification, and
    the handler keeps no task handle: these presses are never served, and
    the first press served later applies a mode that includes them. *)
Theorem presses_without_task_are_counted_not_served
    (tick : Z) (to_ticks : Z -> Z) (ts : list Z) (w : Blinker.world)
    (Hd : Blinker.debounced tick (Blinker.last_interrupt_time w) ts)
    (Hc : 0 <= Blinker.button_press_count w < 4)
    (Hnotask : Blinker.task_created w = false)
    (Hnull : Blinker.main_task_handle w = false) :
  let w1 := Blinker.isr_run tick ts w in
  Blinker.button_press_count w1
  = (Blinker.button_press_count w + Z.of_nat (length ts)) mod 4
  /\ Blinker.notifications w1 = Blinker.notifications w
  /\ Blinker.main_task_handle w1 = false
  /\ (Blinker.notifications w = 0%nat ->
      Blinker.main_task to_ticks w1 = None).
Proof.
  intros w1.
  destruct (isr_run_facts tick ts w Hd Hc) as (_ & _ & H3 & H4 & H5 & H6).
  fold w1 in H3, H4, H5, H6.
  rewrite Hnotask, Hnull in H5, H6. simpl in H5, H6.
  rewrite H3, Hnotask, Bool.orb_false_r in H6.
  split; [exact H4|]. split; [lia|]. split; [exact H6|].
  intros Hidle. unfold Blinker.main_task. rewrite H5, Nat.add_0_r, Hidle.
  reflexivity.
Qed.

Lemma presses_without_task_are_counted_not_served_witness :
  let early := {| Blinker.led_timer := None;
                  Blinker.button_press_count := 0;
                  Blinker.last_interrupt_time := 0;
                  Blinker.main_task_handle := false;
                  Blinker.task_created := false;
                  Blinker.notifications := 0;
                  Blinker.next_timer := 0%nat |} in
  Blinker.button_press_count (Blinker.isr_run 10 [10; 20] early) = 2 mod 4.
Proof.
  intros early.
  refine (proj1 (presses_without_task_are_counted_not_served
                   10 (fun ms => ms / 10) [10; 20] early
                   _ _ eq_refl eq_refl)).
  - vm_compute. repeat split.
  - simpl. lia.
Defined.

(** X11.  The debounce of the handler measures elapsed time modulo 2^32:
    when the millisecond value wraps round between the last accepted press
    and this one, the elapsed time [d] is still computed exactly, and the
    press is accepted exactly when [d] exceeds 50 ms. *)
Theorem debounce_survives_wraparound
    (tick ticks d : Z) (w : Blinker.world)
    (Hlast : 0 <= Blinker.last_interrupt_time w < 2 ^ 32)
    (Hd : 0 <= d < 2 ^ 32)
    (Hnow : to_uint32 (ticks * tick)
            = to_uint32 (Blinker.last_interrupt_time w + d)) :
  sub_uint32 (to_uint32 (ticks * tick)) (Blinker.last_interrupt_time w) = d
  /\ (d <= Blinker.debounce_time_ms ->
      Blinker.button_isr_handler tick ticks w = w)
  /\ (d > Blinker.debounce_time_ms ->
      Blinker.last_interrupt_time (Blinker.button_isr_handler tick ticks w)
      = to_uint32 (ticks * tick)
      /\ Blinker.button_press_count (Blinker.button_isr_handler tick ticks w)
         = to_uint8 (Z.rem (Blinker.button_press_count w + 1) 4)).
Proof.
  assert (Hsub : sub_uint32 (to_uint32 (ticks * tick))
                   (Blinker.last_interrupt_time w) = d).
  { rewrite Hnow. unfold sub_uint32, to_uint32.
    rewrite Zminus_mod_idemp_l.
    replace (Blinker.last_interrupt_time w + d
             - Blinker.last_interrupt_time w) with d by lia.
    apply Z.mod_small. exact Hd. }
  split; [exact Hsub|]. split.
  - intros Hle. apply isr_rejected. rewrite Hsub. exact Hle.
  - intros Hgt. unfold Blinker.button_isr_handler. rewrite Hsub.
    assert (Hb : (d >? Blinker.debounce_time_ms) = true)
      by (apply Z.gtb_lt; lia).
    rewrite Hb. split; reflexivity.
Qed.

Lemma debounce_survives_wraparound_witness :
  let late := {| Blinker.led_timer := None;
                 Blinker.button_press_count := 1;
                 Blinker.last_interrupt_time := 4294967290;
                 Blinker.main_task_handle := true;
                 Blinker.task_created := true;
                 Blinker.notifications := 0;
                 Blinker.next_timer := 0%nat |} in
  Blinker.last_interrupt_time (Blinker.button_isr_handler 1 4294967350 late)
  = 54.
Proof.
  intros late.
  refine (proj1 (proj2 (proj2 (debounce_survives_wraparound
                                 1 4294967350 60 late _ _ _)) _)).
  - simpl. lia.
  - lia.
  - reflexivity.
  - unfold Blinker.debounce_time_ms. lia.
Defined.

End BlinkerEdgeClaims.

Section BlinkerTable.
Import Int Hal.

(** X12.  Whatever mode it is called with, [configure_led_timer] programs
    an alarm only for modes 0, 1 and 2, always on the timer it has just
    created, with automatic reload from 0 and one of the three periods
    500,000, 250,000 and 125,000 us: the fourth table entry, 0, never
    reaches the driver. *)
Theorem alarm_period_is_never_zero
    (mode : Z) (w : Blinker.world) (h : handle) (r a : Z) (f : bool)
    (Hmode : 0 <= mode)
    (Hin : In (gptimer_set_alarm_action h r a f)
              (snd (Blinker.configure_led_timer mode w))) :
  mode < 3
  /\ h = Blinker.next_timer w
  /\ r = 0 /\ f = true
  /\ a = nth (Z.to_nat mode) Blinker.timer_periods 0
  /\ (a = 500000 \/ a = 250000 \/ a = 125000).
Proof.
  rewrite configure_calls in Hin. apply in_app_or in Hin.
  destruct Hin as [Hin|Hin].
  - destruct (Blinker.led_timer w); simpl in Hin;
      repeat (destruct Hin as [Hin|Hin]; [discriminate Hin|]); contradiction.
  - destruct (mode <? 3) eqn:Hlt; [|contradiction].
    apply Z.ltb_lt in Hlt. simpl in Hin.
    destruct Hin as [Hin|[Hin|[Hin|[Hin|[Hin|[]]]]]]; try discriminate Hin.
    inversion Hin; subst h r a f.
    repeat split; try assumption.
    assert (Hcases : mode = 0 \/ mode = 1 \/ mode = 2) by lia.
    destruct Hcases as [H|[H|H]]; subst mode; simpl; tauto.
Qed.

Lemma alarm_period_is_never_zero_witness :
  250000 = nth (Z.to_nat 1) Blinker.timer_periods 0.
Proof.
  refine (proj1 (proj2 (proj2 (proj2 (proj2
            (alarm_period_is_never_zero 1 Blinker.boot 0%nat 0 250000 true
               _ _)))))).
  - lia.
  - simpl. tauto.
Defined.

(** X13.  Switching the LED off: for every mode of 3 or more,
    [configure_led_timer] releases the timer in use, drives the LED low and
    creates nothing, leaving [led_timer] NULL; called again in that state it
    makes no call at all and changes nothing. *)
Theorem switching_off_releases_and_is_idempotent
    (mode mode' : Z) (w : Blinker.world)
    (Hoff : 3 <= mode) (Hoff' : 3 <= mode') :
  let w1 := fst (Blinker.configure_led_timer mode w) in
  Blinker.led_timer w1 = None
  /\ snd (Blinker.configure_led_timer mode w)
     = match Blinker.led_timer w with
       | Some t =>
           [gptimer_stop t; gptimer_disable t; gptimer_del_timer t;
            gpio_set_level Blinker.LED_GPIO 0]
       | None => []
       end
  /\ Blinker.next_timer w1 = Blinker.next_timer w
  /\ Blinker.configure_led_timer mode' w1 = (w1, []).
Proof.
  assert (Hm : (mode <? 3) = false) by (apply Z.ltb_ge; lia).
  assert (Hm' : (mode' <? 3) = false) by (apply Z.ltb_ge; lia).
  cbv zeta. rewrite configure_calls, configure_world, Hm.
  cbn [Blinker.led_timer Blinker.next_timer].
  split; [reflexivity|]. split; [apply app_nil_r|]. split; [reflexivity|].
  unfold Blinker.configure_led_timer. cbn [Blinker.led_timer].
  rewrite Hm'. reflexivity.
Qed.

Lemma switching_off_releases_and_is_idempotent_witness :
  let w := fst (Blinker.configure_led_timer 2 Blinker.boot) in
  snd (Blinker.configure_led_timer 3 w)
  = [gptimer_stop 0%nat; gptimer_disable 0%nat; gptimer_del_timer 0%nat;
     gpio_set_level 9 0].
Proof.
  intros w.
  refine (proj1 (proj2 (switching_off_releases_and_is_idempotent 3 7 w _ _)));
    lia.
Defined.

Lemma callbacks_parity (n : nat) :
  Nat.iter n Blinker.led_timer_callback Blinker.led_boot
  = {| Blinker.led_state := Z.of_nat n mod 2;
       Blinker.led_pin := Z.of_nat n mod 2 |}.
Proof.
  induction n as [|n IH]; [reflexivity|].
  simpl Nat.iter. rewrite IH. unfold Blinker.led_timer_callback.
  cbn [Blinker.led_state].
  assert (Hb : 0 <= Z.of_nat n mod 2 < 2) by (apply Z.mod_pos_bound; lia).
  assert (Hs : Z.of_nat (S n) mod 2 = (Z.of_nat n mod 2 + 1) mod 2)
    by (rewrite Zplus_mod_idemp_l; f_equal; lia).
  rewrite Hs.
  assert (Hc : Z.of_nat n mod 2 = 0 \/ Z.of_nat n mod 2 = 1) by lia.
  destruct Hc as [Hc|Hc]; rewrite Hc; reflexivity.
Qed.

(** X14.  The callback of the LED timer keeps its own [led_state] and a
    reconfiguration does not reset it: after n alarms the LED shows the
    parity of n; releasing the timer drives the LED low but leaves
    [led_state] at that parity, so the first alarm of the next timer drives
    the LED to the opposite parity, which is low again when n was odd. *)
Theorem reconfigure_keeps_callback_phase
    (n : nat) (mode : Z) (w : Blinker.world) (t : handle)
    (Ht : Blinker.led_timer w = Some t) :
  let l := Nat.iter n Blinker.led_timer_callback Blinker.led_boot in
  let l1 := fold_left Blinker.led_write
              (snd (Blinker.configure_led_timer mode w)) l in
  Blinker.led_pin l = Z.of_nat n mod 2
  /\ Blinker.led_pin l1 = 0
  /\ Blinker.led_state l1 = Z.of_nat n mod 2
  /\ Blinker.led_pin (Blinker.led_timer_callback l1)
     = 1 - Z.of_nat n mod 2.
Proof.
  cbv zeta. rewrite callbacks_parity, configure_calls, Ht.
  assert (Hb : 0 <= Z.of_nat n mod 2 < 2) by (apply Z.mod_pos_bound; lia).
  assert (Hc : Z.of_nat n mod 2 = 0 \/ Z.of_nat n mod 2 = 1) by lia.
  destruct (mode <? 3); destruct Hc as [Hc|Hc]; rewrite Hc;
    repeat split.
Qed.

Lemma reconfigure_keeps_callback_phase_witness :
  let w := fst (Blinker.configure_led_timer 0 Blinker.boot) in
  let l := Nat.iter 3 Blinker.led_timer_callback Blinker.led_boot in
  Blinker.led_pin
    (Blinker.led_timer_callback
       (fold_left Blinker.led_write
          (snd (Blinker.configure_led_timer 1 w)) l))
  = 0.
Proof.
  intros w l.
  refine (proj2 (proj2 (proj2 (reconfigure_keeps_callback_phase
                                 3 1 w 0%nat _)))).
  reflexivity.
Defined.

End BlinkerTable.


(** * More on the kernel timer program of src/unnamed/part_001 *)

Section SwBlinkerMore.
Import Int Hal.
Variable to_ticks : Z -> Z.

Lemma sw_turns_keep_timer (envs : list (bool * nat)) :
  forall (w : SwBlinker.world) (t : handle),
    SwBlinker.led_timer w = Some t ->
    0 <= SwBlinker.button_state w < 4 ->
    exists w1,
      SwBlinker.turns to_ticks envs w = Some w1
      /\ SwBlinker.led_timer w1 = Some t
      /\ SwBlinker.button_state w1
         = (SwBlinker.button_state w + Z.of_nat (length envs)) mod 4.
Proof.
  induction envs as [|[active polls] envs IH]; intros w t Ht Hc.
  - exists w. split; [reflexivity|]. split; [exact Ht|].
    simpl. rewrite Z.add_0_r, Z.mod_small; lia.
  - destruct (sw_turn_advances to_ticks active polls w t Ht Hc)
      as (w1 & calls & Hrun & Hst & Ht1).
    assert (Hb : 0 <= SwBlinker.button_state w1 < 4)
      by (rewrite Hst; apply Z.mod_pos_bound; lia).
    destruct (IH w1 t Ht1 Hb) as (w2 & Hrun2 & Ht2 & Hst2).
    exists w2. split; [simpl; rewrite Hrun; exact Hrun2|].
    split; [exact Ht2|].
    rewrite Hst2, Hst, Zplus_mod_idemp_l. f_equal.
    change (length ((active, polls) :: envs)) with (S (length envs)). lia.
Qed.

(** The timer calls of one served press. *)
Lemma sw_turn_timer_calls (active : bool) (polls : nat)
    (w : SwBlinker.world) (t : handle) :
  SwBlinker.led_timer w = Some t ->
  exists w1 calls,
    SwBlinker.button_task to_ticks 1 active polls w = Some (w1, calls)
    /\ SwBlinker.timer_calls calls
       = (if active then [xTimerStop t] else [])
         ++ match SwBlinker.period_ms (SwBlinker.button_state w) with
            | Some ms => [xTimerChangePeriod t (to_ticks ms); xTimerStart t]
            | None => []
            end
    /\ SwBlinker.led_state w1
       = (if SwBlinker.button_state w =? 3 then false
          else SwBlinker.led_state w).
Proof.
  intros Ht. unfold SwBlinker.button_task, SwBlinker.apply_state.
  simpl (1 =? 1). cbv iota. rewrite Ht.
  assert (H3 : SwBlinker.period_ms 3 = None) by reflexivity.
  destruct (SwBlinker.period_ms (SwBlinker.button_state w)) as [ms|] eqn:Hp.
  - eexists _, _. split; [reflexivity|]. split.
    + destruct active; unfold SwBlinker.timer_calls; simpl;
        rewrite ?filter_app;
        fold (SwBlinker.timer_calls
                (repeat (vTaskDelay (to_ticks 10)) polls));
        rewrite timer_calls_delays; reflexivity.
    + destruct (SwBlinker.button_state w =? 3) eqn:E; [|reflexivity].
      apply Z.eqb_eq in E. rewrite E in Hp. discriminate Hp.
  - destruct (SwBlinker.button_state w =? 3);
      (eexists _, _; split; [reflexivity|]; split; [|reflexivity];
       destruct active; unfold SwBlinker.timer_calls; simpl;
       rewrite ?filter_app;
       fold (SwBlinker.timer_calls
               (repeat (vTaskDelay (to_ticks 10)) polls));
       rewrite timer_calls_delays; reflexivity).
Qed.

Lemma running_delays (t : handle) (r : bool) (k : Z) (n : nat) :
  running t r (repeat (vTaskDelay k) n) = r.
Proof. induction n as [|n IH]; [reflexivity|exact IH]. Qed.

Lemma running_app (t : handle) (r : bool) (a b : list call) :
  running t r (a ++ b) = running t (running t r a) b.
Proof. unfold running. apply fold_left_app. Qed.

(** All the calls of one served press, in order. *)
Lemma sw_turn_calls (active : bool) (polls : nat)
    (w : SwBlinker.world) (t : handle) :
  SwBlinker.led_timer w = Some t ->
  exists w1,
    SwBlinker.button_task to_ticks 1 active polls w
    = Some (w1,
            [vTaskDelay (to_ticks 50);
             gpio_set_level SwBlinker.BUZZER_GPIO 1;
             vTaskDelay (to_ticks SwBlinker.BUZZER_DURATION_MS);
             gpio_set_level SwBlinker.BUZZER_GPIO 0]
            ++ (if active then [xTimerStop t] else [])
            ++ match SwBlinker.period_ms (SwBlinker.button_state w) with
               | Some ms =>
                   [xTimerChangePeriod t (to_ticks ms); xTimerStart t]
               | None =>
                   if SwBlinker.button_state w =? 3
                   then [gpio_set_level SwBlinker.LED_GPIO 0] else []
               end
            ++ repeat (vTaskDelay (to_ticks 10)) polls
            ++ [vTaskDelay (to_ticks 50)])
    /\ SwBlinker.led_state w1
       = (if SwBlinker.button_state w =? 3 then false
          else SwBlinker.led_state w)
    /\ SwBlinker.led_timer w1 = Some t.
Proof.
  intros Ht. unfold SwBlinker.button_task, SwBlinker.apply_state.
  simpl (1 =? 1). cbv iota. rewrite Ht.
  destruct (SwBlinker.period_ms (SwBlinker.button_state w)) as [ms|] eqn:Hp.
  - eexists. split; [reflexivity|]. simpl. split; [|exact Ht].
    destruct (SwBlinker.button_state w =? 3) eqn:E; [|reflexivity].
    apply Z.eqb_eq in E. rewrite E in Hp. discriminate Hp.
  - destruct (SwBlinker.button_state w =? 3);
      (eexists; split; [reflexivity|]; simpl; split;
       [reflexivity|assumption || reflexivity]).
Qed.

End SwBlinkerMore.

Section SwBlinkerClaims.
Import Int Hal.

(** X15.  In src/unnamed/part_001 the state is looked up before it is
    advanced: the press served after k earlier ones applies the entry for
    k mod 4 (500 ms, 250 ms, 125 ms, then nothing) and leaves
    [button_state] at (k + 1) mod 4.  Its timer calls are a stop when the
    timer is active, followed for the three blinking entries by the new
    period and a start on the same timer. *)
Theorem sw_press_applies_state_before_advancing
    (to_ticks : Z -> Z) (envs : list (bool * nat))
    (active : bool) (polls : nat) (t : handle) :
  let k := Z.of_nat (length envs) in
  exists wk w1 calls,
    SwBlinker.turns to_ticks envs (SwBlinker.boot t) = Some wk
    /\ SwBlinker.button_state wk = k mod 4
    /\ SwBlinker.button_task to_ticks 1 active polls wk = Some (w1, calls)
    /\ SwBlinker.timer_calls calls
       = (if active then [xTimerStop t] else [])
         ++ match SwBlinker.period_ms (k mod 4) with
            | Some ms => [xTimerChangePeriod t (to_ticks ms); xTimerStart t]
            | None => []
            end
    /\ SwBlinker.button_state w1 = (k + 1) mod 4
    /\ SwBlinker.period_ms 0 = Some 500 /\ SwBlinker.period_ms 1 = Some 250
    /\ SwBlinker.period_ms 2 = Some 125 /\ SwBlinker.period_ms 3 = None.
Proof.
  intros k.
  destruct (sw_turns_keep_timer to_ticks envs (SwBlinker.boot t) t)
    as (wk & Hrun & Ht & Hst); [reflexivity|simpl; lia|].
  simpl in Hst. fold k in Hst.
  assert (Hb : 0 <= SwBlinker.button_state wk < 4)
    by (rewrite Hst; apply Z.mod_pos_bound; lia).
  destruct (sw_turn_timer_calls to_ticks active polls wk t Ht)
    as (w1 & calls & Htask & Hcalls & _).
  destruct (sw_turn_advances to_ticks active polls wk t Ht Hb)
    as (w1' & calls' & Htask' & Hst1 & _).
  rewrite Htask in Htask'. inversion Htask'; subst w1' calls'.
  exists wk, w1, calls.
  split; [exact Hrun|]. split; [exact Hst|]. split; [exact Htask|].
  split; [rewrite <- Hst; exact Hcalls|].
  split; [rewrite Hst1, Hst, Zplus_mod_idemp_l; reflexivity|].
  repeat split.
Qed.

(** X16.  After a served press the kernel timer runs exactly in the three
    blinking states: the press served in state 0, 1 or 2 leaves it running
    with the new period, the press served in state 3 leaves it stopped and
    clears [led_state], provided [xTimerIsTimerActive] told the truth about
    the timer before. *)
Theorem sw_timer_runs_exactly_when_blinking
    (to_ticks : Z -> Z) (active : bool) (polls : nat)
    (w : SwBlinker.world) (t : handle)
    (Ht : SwBlinker.led_timer w = Some t)
    (Hc : 0 <= SwBlinker.button_state w < 4) :
  exists w1 calls,
    SwBlinker.button_task to_ticks 1 active polls w = Some (w1, calls)
    /\ running t active calls = (SwBlinker.button_state w <? 3)
    /\ (SwBlinker.button_state w = 3 ->
        SwBlinker.led_state w1 = false
        /\ In (gpio_set_level SwBlinker.LED_GPIO 0) calls).
Proof.
  destruct (sw_turn_calls to_ticks active polls w t Ht)
    as (w1 & Hrun & Hled & _).
  eexists _, _. split; [exact Hrun|].
  assert (Hcases : SwBlinker.button_state w = 0
                   \/ SwBlinker.button_state w = 1
                   \/ SwBlinker.button_state w = 2
                   \/ SwBlinker.button_state w = 3) by lia.
  rewrite !running_app, running_delays.
  destruct Hcases as [Hs|[Hs|[Hs|Hs]]]; rewrite Hs in *; simpl;
    (split;
     [destruct active; simpl; rewrite ?Nat.eqb_refl; reflexivity
     |intros H; try discriminate H;
      (split; [exact Hled|rewrite !in_app_iff; simpl; tauto])]).
Qed.

Lemma sw_timer_runs_exactly_when_blinking_witness :
  exists w1 calls,
    SwBlinker.button_task (fun ms => ms / 10) 1 true 2
      {| SwBlinker.led_timer := Some 5%nat; SwBlinker.button_state := 3;
         SwBlinker.led_state := true |} = Some (w1, calls)
    /\ running 5%nat true calls = false.
Proof.
  destruct (sw_timer_runs_exactly_when_blinking (fun ms => ms / 10) true 2
              {| SwBlinker.led_timer := Some 5%nat;
                 SwBlinker.button_state := 3;
                 SwBlinker.led_state := true |} 5%nat)
    as (w1 & calls & Hrun & Hr & _).
  - reflexivity.
  - simpl. lia.
  - exists w1, calls. split; [exact Hrun|exact Hr].
Defined.

End SwBlinkerClaims.


(** * The LED toggled in a loop *)

Section ToggleMore.
Import Int Hal.
Variable to_ticks : Z -> Z.

Lemma odd_uint32 (x : Z) : Z.odd (to_uint32 x) = Z.odd x.
Proof.
  unfold to_uint32. rewrite Z.mod_eq by lia.
  rewrite Z.odd_sub, Z.odd_mul.
  change (Z.odd (2 ^ 32)) with false. simpl. apply Bool.xorb_false_r.
Qed.

Lemma toggles_state (n : nat) :
  forall l : Toggle.locals,
    to_uint32 (Toggle.toggle_count l) = Toggle.toggle_count l ->
    Toggle.toggle_count (fst (Toggle.toggles to_ticks n l))
    = to_uint32 (Toggle.toggle_count l + Z.of_nat n)
    /\ Toggle.led_state (fst (Toggle.toggles to_ticks n l))
       = xorb (Toggle.led_state l) (Z.odd (Z.of_nat n)).
Proof.
  induction n as [|n IH]; intros l Hl.
  - simpl. rewrite Z.add_0_r, Bool.xorb_false_r, Hl. split; reflexivity.
  - simpl Toggle.toggles. unfold Toggle.toggle.
    set (l1 := {| Toggle.toggle_count := to_uint32 (Toggle.toggle_count l + 1);
                  Toggle.led_state := negb (Toggle.led_state l) |}).
    destruct (IH l1) as [Hc Hs].
    { simpl. unfold to_uint32. apply Z.mod_mod. lia. }
    assert (Hodd : Z.odd (Z.of_nat (S n)) = negb (Z.odd (Z.of_nat n)))
      by (rewrite Nat2Z.inj_succ, Z.odd_succ, <- Z.negb_odd; reflexivity).
    assert (Hsucc : Z.of_nat (S n) = Z.of_nat n + 1) by lia.
    rewrite Hodd, Hsucc.
    destruct (Toggle.toggles to_ticks n l1) as [l2 c2].
    cbn [fst] in *. cbn [Toggle.toggle_count Toggle.led_state l1] in Hc, Hs.
    split.
    + rewrite Hc. unfold to_uint32. rewrite Zplus_mod_idemp_l.
      f_equal. lia.
    + rewrite Hs.
      destruct (Toggle.led_state l), (Z.odd (Z.of_nat n)); reflexivity.
Qed.

(** X17.  In src/unnamed/part_002, after n turns of the loop the counter
    is n modulo 2^32 and the LED is on exactly when n is odd; the LED state
    is always the parity of the counter, also after the counter has wrapped
    round.  When [gpio_config] fails the program makes no call at all. *)
Theorem toggle_state_is_parity_of_count (n : nat) :
  let l := fst (Toggle.app_main to_ticks true n) in
  Toggle.toggle_count l = Z.of_nat n mod 2 ^ 32
  /\ Toggle.led_state l = Z.odd (Z.of_nat n)
  /\ Toggle.led_state l = Z.odd (Toggle.toggle_count l)
  /\ snd (Toggle.app_main to_ticks false n) = [].
Proof.
  unfold Toggle.app_main.
  destruct (toggles_state n {| Toggle.toggle_count := 0;
                               Toggle.led_state := false |} eq_refl)
    as [Hc Hs].
  destruct (Toggle.toggles to_ticks n _) as [l calls]. simpl in *.
  rewrite Hc, Hs, odd_uint32. repeat split.
Qed.

End ToggleMore.

Section SwBlinkerLed.
Import Int Hal.
Variable to_ticks : Z -> Z.

Lemma pin_after_app (g v : Z) (a b : list call) :
  pin_after g v (a ++ b) = pin_after g (pin_after g v a) b.
Proof. unfold pin_after. apply fold_left_app. Qed.

Lemma pin_after_delays (g v k : Z) (n : nat) :
  pin_after g v (repeat (vTaskDelay k) n) = v.
Proof. induction n as [|n IH]; [reflexivity|exact IH]. Qed.

Lemma run_keeps_led_in_step (evs : list SwBlinker.event) (t : handle) :
  forall (w : SwBlinker.world) (log : list call),
    SwBlinker.led_timer w = Some t ->
    pin_after SwBlinker.LED_GPIO 0 log
    = (if SwBlinker.led_state w then 1 else 0) ->
    exists w1 log1,
      SwBlinker.run to_ticks evs w log = Some (w1, log1)
      /\ pin_after SwBlinker.LED_GPIO 0 log1
         = (if SwBlinker.led_state w1 then 1 else 0).
Proof.
  induction evs as [|[|active polls] evs IH]; intros w log Ht Hpin.
  - exists w, log. split; [reflexivity|exact Hpin].
  - simpl. apply IH; [exact Ht|].
    rewrite pin_after_app. reflexivity.
  - destruct (sw_turn_calls to_ticks active polls w t Ht)
      as (w1 & Hrun & Hled & Ht1).
    simpl SwBlinker.run. rewrite Hrun.
    apply IH; [exact Ht1|].
    rewrite !pin_after_app, pin_after_delays, Hled.
    destruct (SwBlinker.period_ms (SwBlinker.button_state w)) eqn:Hp;
      destruct (SwBlinker.button_state w =? 3) eqn:E;
      try (apply Z.eqb_eq in E; rewrite E in Hp; discriminate Hp);
      destruct active; simpl; try exact Hpin; reflexivity.
Qed.

End SwBlinkerLed.

(** X18.  In src/unnamed/part_001 [led_state] always mirrors the LED pin:
    however alarms of the timer and served presses interleave from boot,
    the run never aborts and the level last driven on the LED pin is 1
    exactly when [led_state] is true.  The off press sets both low, the
    other presses touch neither. *)
Theorem sw_led_state_mirrors_pin
    (to_ticks : Z -> Z) (evs : list SwBlinker.event) (t : Hal.handle) :
  exists w log,
    SwBlinker.run to_ticks evs (SwBlinker.boot t) [] = Some (w, log)
    /\ Hal.pin_after SwBlinker.LED_GPIO 0 log
       = (if SwBlinker.led_state w then 1 else 0).
Proof.
  apply (run_keeps_led_in_step to_ticks evs t); reflexivity.
Qed.


(** * Presses and task turns in any order *)

Section Scheduling.
Import Int Hal.
Variable tick : Z.
Variable to_ticks : Z -> Z.

Let sched := Blinker.schedule tick to_ticks.

(** A turn of the task is its two halves one after the other. *)
Lemma main_task_split (w : Blinker.world) :
  Blinker.main_task to_ticks w
  = match Blinker.main_task_take to_ticks w with
    | None => None
    | Some (w1, c1) =>
        let (w2, c2) := Blinker.main_task_configure w1 in
        Some (w2, c1 ++ c2)
    end.
Proof.
  unfold Blinker.main_task, Blinker.main_task_take,
    Blinker.main_task_configure.
  destruct (Blinker.notifications w); reflexivity.
Qed.

Lemma schedule_app (a b : list Blinker.sched_step) :
  forall (w : Blinker.world) (pc : Blinker.task_pc) (log : list call),
    sched (a ++ b) w pc log
    = sched b (fst (fst (sched a w pc log))) (snd (fst (sched a w pc log)))
        (snd (sched a w pc log)).
Proof.
  unfold sched.
  induction a as [|[t|] a IH]; intros w pc log; simpl.
  - reflexivity.
  - apply IH.
  - destruct pc.
    + destruct (Blinker.main_task_take to_ticks w) as [[w1 c]|]; apply IH.
    + destruct (Blinker.main_task_configure w) as [w1 c]. apply IH.
Qed.

Lemma schedule_isrs (ts : list Z) :
  forall (w : Blinker.world) (pc : Blinker.task_pc) (log : list call),
    sched (map Blinker.Isr ts) w pc log = (Blinker.isr_run tick ts w, pc, log).
Proof.
  unfold sched. induction ts as [|t ts IH]; intros w pc log; simpl.
  - reflexivity.
  - rewrite IH. reflexivity.
Qed.

(** Presses served one by one are one schedule among all. *)
Lemma presses_as_schedule (ts : list Z) :
  forall (w w1 : Blinker.world) (log log1 : list call),
    Blinker.presses tick to_ticks ts w log = Some (w1, log1) ->
    sched (Blinker.one_by_one ts) w Blinker.AtTake log
    = (w1, Blinker.AtTake, log1).
Proof.
  unfold sched.
  induction ts as [|t ts IH]; intros w w1 log log1 Hrun; simpl in Hrun.
  - inversion Hrun; subst. reflexivity.
  - destruct (Blinker.press tick to_ticks t w) as [[w2 calls]|] eqn:Hp;
      [|discriminate].
    unfold Blinker.press in Hp. rewrite main_task_split in Hp.
    simpl.
    destruct (Blinker.main_task_take to_ticks
                (Blinker.button_isr_handler tick t w)) as [[wa c1]|];
      [|discriminate].
    destruct (Blinker.main_task_configure wa) as [wb c2].
    inversion Hp; subst w2 calls.
    rewrite <- app_assoc. apply IH, Hrun.
Qed.

(** The task wakes up on an accepted press; [woken] are the globals
    then. *)
Lemma take_after_accepted (t : Z) (w : Blinker.world) :
  Blinker.notifications w = 0%nat ->
  Blinker.task_created w = true ->
  0 <= Blinker.button_press_count w ->
  sub_uint32 (to_uint32 (t * tick)) (Blinker.last_interrupt_time w)
    > Blinker.debounce_time_ms ->
  Blinker.main_task_take to_ticks (Blinker.button_isr_handler tick t w)
  = Some (Blinker.woken tick t w, Blinker.activate_buzzer to_ticks).
Proof.
  intros Hidle Htask Hc Hpass.
  rewrite (isr_accepted tick t w Hpass Hc).
  destruct w as [lt c l h tc n nt]. simpl in Hidle, Htask. subst tc n.
  unfold Blinker.main_task_take, Blinker.woken.
  cbn [Blinker.led_timer Blinker.button_press_count
       Blinker.last_interrupt_time Blinker.main_task_handle
       Blinker.task_created Blinker.notifications Blinker.next_timer].
  destruct h; reflexivity.
Qed.

(** A press is accepted and the task wakes up; further presses are
    accepted before the task reads the counter: the one lookup that follows
    counts them all. *)
Lemma lookup_counts_presses_during_pulse
    (t : Z) (during : list Z) (w : Blinker.world) (log : list call) :
  Blinker.notifications w = 0%nat ->
  Blinker.task_created w = true ->
  0 <= Blinker.button_press_count w < 4 ->
  sub_uint32 (to_uint32 (t * tick)) (Blinker.last_interrupt_time w)
    > Blinker.debounce_time_ms ->
  Blinker.debounced tick (to_uint32 (t * tick)) during ->
  let mode :=
    (Blinker.button_press_count w + 1 + Z.of_nat (length during)) mod 4 in
  exists w2,
    sched ([Blinker.Isr t; Blinker.Run] ++ map Blinker.Isr during
           ++ [Blinker.Run]) w Blinker.AtTake log
    = (w2, Blinker.AtTake,
       log ++ Blinker.activate_buzzer to_ticks
       ++ snd (Blinker.configure_led_timer mode w))
    /\ Blinker.button_press_count w2 = mode
    /\ Blinker.notifications w2 = length during.
Proof.
  intros Hidle Htask Hc Hpass Hd mode.
  assert (Hb : 0 <= (Blinker.button_press_count w + 1) mod 4 < 4)
    by (apply Z.mod_pos_bound; lia).
  destruct (isr_run_facts tick during (Blinker.woken tick t w) Hd Hb)
    as (H1 & H2 & _ & H4 & H5 & _).
  cbn [Blinker.woken Blinker.led_timer Blinker.button_press_count
       Blinker.notifications Blinker.next_timer Blinker.main_task_handle
       Blinker.task_created orb] in H1, H2, H4, H5.
  rewrite Zplus_mod_idemp_l in H4. fold mode in H4.
  set (wc := Blinker.isr_run tick during (Blinker.woken tick t w)) in *.
  exists (fst (Blinker.configure_led_timer mode wc)).
  split; [|split].
  - unfold sched. simpl Blinker.schedule.
    rewrite (take_after_accepted t w Hidle Htask (proj1 Hc) Hpass).
    fold sched. rewrite schedule_app, schedule_isrs. fold wc.
    unfold sched. simpl. unfold Blinker.main_task_configure.
    rewrite H4.
    assert (Hcalls : snd (Blinker.configure_led_timer mode wc)
                     = snd (Blinker.configure_led_timer mode w))
      by (rewrite !configure_calls, H1, H2; reflexivity).
    destruct (Blinker.configure_led_timer mode wc) as [w2 calls].
    simpl in *. subst calls. rewrite <- app_assoc. reflexivity.
  - rewrite configure_world. exact H4.
  - rewrite configure_world. cbn [Blinker.notifications]. exact H5.
Qed.

(** The timers alive along a log. *)
Lemma peak_ge_start (l : list call) :
  forall alive : list handle, (length alive <= peak_live alive l)%nat.
Proof. destruct l; intros alive; simpl; lia. Qed.

Lemma peak_app (a b : list call) :
  forall alive : list handle,
    peak_live alive (a ++ b)
    = Nat.max (peak_live alive a) (peak_live (live_after alive a) b).
Proof.
  induction a as [|c a IH]; intros alive.
  - simpl. assert (H := peak_ge_start b alive). lia.
  - change (live_after alive (c :: a)) with (live_after (live_step alive c) a).
    simpl. rewrite IH. lia.
Qed.

Lemma peak_prefix (l pre rest : list call) (alive : list handle) :
  l = pre ++ rest ->
  (length (live_after alive pre) <= peak_live alive l)%nat.
Proof.
  intros ->. rewrite peak_app.
  assert (H := peak_ge_start rest (live_after alive pre)). lia.
Qed.

Lemma peak_pulse (pulse : list call) :
  Forall (fun c => target c = None) pulse ->
  forall alive : list handle, peak_live alive pulse = length alive.
Proof.
  induction 1 as [|c cs Hc _ IH]; intros alive; [reflexivity|].
  simpl. replace (live_step alive c) with alive
    by (destruct c; simpl in Hc; try discriminate Hc; reflexivity).
  rewrite IH. lia.
Qed.

Lemma peak_configure (mode : Z) (w : Blinker.world) :
  (peak_live
     match Blinker.led_timer w with Some t => [t] | None => [] end
     (snd (Blinker.configure_led_timer mode w)) <= 1)%nat.
Proof.
  rewrite configure_calls.
  destruct (Blinker.led_timer w) as [t|]; destruct (mode <? 3); simpl;
    rewrite ?Nat.eqb_refl; simpl; lia.
Qed.

Lemma schedule_one_timer (steps : list Blinker.sched_step) :
  forall (w : Blinker.world) (pc : Blinker.task_pc) (log : list call),
    Blinker.one_timer w log ->
    Blinker.one_timer (fst (fst (sched steps w pc log)))
      (snd (sched steps w pc log)).
Proof.
  unfold sched.
  induction steps as [|[t|] steps IH]; intros w pc log [Hlive Hpeak]; simpl.
  - split; assumption.
  - apply IH. split; [|exact Hpeak].
    rewrite (proj1 (isr_keeps_timer tick t w)). exact Hlive.
  - destruct pc.
    + unfold Blinker.main_task_take.
      destruct (Blinker.notifications w).
      * apply IH. split; assumption.
      * apply IH. split.
        -- unfold live_after. rewrite fold_left_app.
           fold (live_after [] log).
           fold (live_after (live_after [] log)
                   (Blinker.activate_buzzer to_ticks)).
           rewrite (pulse_keeps_live _ _ (buzzer_calls_no_timer to_ticks)).
           exact Hlive.
        -- rewrite peak_app,
             (peak_pulse _ (buzzer_calls_no_timer to_ticks)), Hlive.
           cbn [Blinker.led_timer].
           destruct (Blinker.led_timer w); simpl; lia.
    + unfold Blinker.main_task_configure.
      assert (Hl := configure_live (Blinker.button_press_count w) w log []
                      Hlive (Forall_nil _)).
      assert (Hp := peak_configure (Blinker.button_press_count w) w).
      simpl in Hl.
      destruct (Blinker.configure_led_timer
                  (Blinker.button_press_count w) w) as [w1 calls].
      simpl in Hl, Hp. apply IH. split; [exact Hl|].
      rewrite peak_app, Hlive. lia.
Qed.

End Scheduling.

Section SchedulingClaims.
Import Int Hal.

(** C10, as stated, fails: the task reads [button_press_count] after the
    100 ms buzzer pulse.  With 10 ms ticks, a press accepted at tick 10 and
    a second one accepted at tick 16, while the buzzer still sounds for the
    first, are both counted before the first lookup: the two turns of the
    task program 125,000 us twice and table entry 1 is never applied. *)
Lemma press_during_pulse_skips_table_entry_one :
  let r := Blinker.schedule 10 (fun ms => ms / 10)
             [Blinker.Isr 10; Blinker.Run; Blinker.Isr 16; Blinker.Run;
              Blinker.Run; Blinker.Run] Blinker.boot Blinker.AtTake [] in
  Blinker.button_press_count (fst (fst r)) = 2
  /\ programmed (snd r) = [125000; 125000]
  /\ ~ In 250000 (programmed (snd r)).
Proof.
  vm_compute. split; [reflexivity|]. split; [reflexivity|].
  intros [H|[H|[]]]; discriminate H.
Qed.

(** C10, amended.  [button_press_count] is 0 at boot; the handler advances
    it on every accepted press and the task looks it up after the buzzer
    pulse.  When every accepted press is served in full by the task before
    the next one is accepted, after the k-th accepted press the counter is
    k mod 4 and the generator is in the mode of table entry k mod 4: the
    first press runs the timer at 250,000 us, the third leaves the LED off,
    the fourth runs the timer at 500,000 us.  When further presses are
    accepted between the wake-up of the task and its lookup, that one
    lookup applies the entry that counts them as well, and they stay
    pending as notifications. *)
Theorem kth_press_applies_table_entry_k_mod_four
    (tick : Z) (to_ticks : Z -> Z) (ts : list Z)
    (Hpressed : ts <> [])
    (Hpass : Blinker.debounced tick 0 ts) :
  let k := Z.of_nat (length ts) in
  Blinker.button_press_count Blinker.boot = 0
  /\ (exists w1 log,
        Blinker.presses tick to_ticks ts Blinker.boot [] = Some (w1, log)
        /\ Blinker.schedule tick to_ticks (Blinker.one_by_one ts)
             Blinker.boot Blinker.AtTake []
           = (w1, Blinker.AtTake, log)
        /\ Blinker.button_press_count w1 = k mod 4
        /\ waveform_after log
           = (if k mod 4 <? 3
              then Enabled (nth (Z.to_nat (k mod 4)) Blinker.timer_periods 0)
              else Disabled)
        /\ (k = 1 -> waveform_after log = Enabled 250000)
        /\ (k = 3 -> waveform_after log = Disabled)
        /\ (k = 4 -> waveform_after log = Enabled 500000))
  /\ (forall (t : Z) (during : list Z) (w : Blinker.world)
             (log : list call),
        Blinker.notifications w = 0%nat ->
        Blinker.task_created w = true ->
        0 <= Blinker.button_press_count w < 4 ->
        sub_uint32 (to_uint32 (t * tick)) (Blinker.last_interrupt_time w)
          > Blinker.debounce_time_ms ->
        Blinker.debounced tick (to_uint32 (t * tick)) during ->
        let mode :=
          (Blinker.button_press_count w + 1 + Z.of_nat (length during))
            mod 4 in
        exists w2,
          Blinker.schedule tick to_ticks
            ([Blinker.Isr t; Blinker.Run] ++ map Blinker.Isr during
             ++ [Blinker.Run]) w Blinker.AtTake log
          = (w2, Blinker.AtTake,
             log ++ Blinker.activate_buzzer to_ticks
             ++ snd (Blinker.configure_led_timer mode w))
          /\ Blinker.button_press_count w2 = mode
          /\ Blinker.notifications w2 = length during).
Proof.
  intros k. split; [reflexivity|]. split.
  - destruct (presses_served tick to_ticks ts Blinker.boot [])
      as (w1 & log & Hrun & Hcount & Hwave);
      try reflexivity; try exact Hpass; try (simpl; lia).
    simpl in Hcount. fold k in Hcount.
    specialize (Hwave Hpressed). rewrite Hcount in Hwave.
    exists w1, log. split; [exact Hrun|].
    split; [exact (presses_as_schedule tick to_ticks ts _ _ _ _ Hrun)|].
    split; [exact Hcount|]. split; [exact Hwave|].
    repeat split; intros Hk; rewrite Hk in Hwave; exact Hwave.
  - intros t during w log.
    apply (lookup_counts_presses_during_pulse tick to_ticks t during w log).
Qed.

Lemma kth_press_applies_table_entry_k_mod_four_witness :
  exists w1 log,
    Blinker.presses 10 (fun ms => ms * 100 / 1000) [10; 25; 31; 60; 70]
      Blinker.boot [] = Some (w1, log)
    /\ Blinker.button_press_count w1 = 5 mod 4
    /\ waveform_after log = Enabled 250000.
Proof.
  assert (Hne : [10; 25; 31; 60; 70] <> []) by discriminate.
  assert (Hpass : Blinker.debounced 10 0 [10; 25; 31; 60; 70])
    by (vm_compute; repeat split).
  destruct (kth_press_applies_table_entry_k_mod_four
              10 (fun ms => ms * 100 / 1000) [10; 25; 31; 60; 70] Hne Hpass)
    as (_ & (w1 & log & Hrun & _ & Hcount & Hwave & _) & _).
  exists w1, log. split; [exact Hrun|]. split; [exact Hcount|exact Hwave].
Defined.

(** X8.  The program never holds more than one general purpose timer.
    After any number of served presses the timers created and not deleted
    are exactly the one [led_timer] points to, and none when it is NULL;
    at every point of the calls made, inside a reconfiguration too, at most
    one timer is alive; the same holds at every point of every interleaving
    of handler runs and half turns of the task from boot. *)
Theorem at_most_one_timer_alive
    (tick : Z) (to_ticks : Z -> Z) (ts : list Z)
    (w1 : Blinker.world) (log : list call)
    (Hrun : Blinker.presses tick to_ticks ts Blinker.boot [] = Some (w1, log)) :
  live_after [] log
  = match Blinker.led_timer w1 with Some t => [t] | None => [] end
  /\ (forall pre rest : list call,
        log = pre ++ rest -> (length (live_after [] pre) <= 1)%nat)
  /\ (forall (steps : list Blinker.sched_step) (pre rest : list call),
        snd (Blinker.schedule tick to_ticks steps Blinker.boot
               Blinker.AtTake []) = pre ++ rest ->
        (length (live_after [] pre) <= 1)%nat).
Proof.
  assert (Hboot : Blinker.one_timer Blinker.boot [])
    by (split; simpl; [reflexivity|lia]).
  assert (Hs := schedule_one_timer tick to_ticks (Blinker.one_by_one ts)
                  Blinker.boot Blinker.AtTake [] Hboot).
  rewrite (presses_as_schedule tick to_ticks ts _ _ _ _ Hrun) in Hs.
  destruct Hs as [Hlive Hpeak]. simpl in Hlive, Hpeak.
  split; [exact Hlive|]. split.
  - intros pre rest Heq.
    assert (H := peak_prefix log pre rest [] Heq). lia.
  - intros steps pre rest Heq.
    destruct (schedule_one_timer tick to_ticks steps Blinker.boot
                Blinker.AtTake [] Hboot) as [_ Hp].
    assert (H := peak_prefix _ pre rest [] Heq). lia.
Qed.

Lemma at_most_one_timer_alive_witness :
  match Blinker.presses 10 (fun ms => ms / 10) [10; 20; 30; 40; 50; 60]
          Blinker.boot [] with
  | Some (w1, log) =>
      Blinker.led_timer w1 = Some 4%nat
      /\ live_after [] log = [4%nat]
      /\ (length (live_after [] (firstn 12 log)) <= 1)%nat
  | None => False
  end.
Proof.
  destruct (Blinker.presses 10 (fun ms => ms / 10) [10; 20; 30; 40; 50; 60]
              Blinker.boot []) as [[w1 log]|] eqn:Hrun.
  - destruct (at_most_one_timer_alive _ _ _ _ _ Hrun) as (Hlive & Hpre & _).
    assert (Hcut := Hpre (firstn 12 log) (skipn 12 log)
                      (eq_sym (firstn_skipn 12 log))).
    vm_compute in Hrun. inversion Hrun; subst w1 log.
    split; [reflexivity|]. split; [exact Hlive|exact Hcut].
  - vm_compute in Hrun. discriminate Hrun.
Defined.

End SchedulingClaims.
